(** * BlackPDF: the page-rendering and navigation pipeline of [main.py]

    A shallow embedding of the class [PDFViewer] of [src/main.py]: its
    attributes and the widgets its methods read and write form one record,
    its methods are computations in a state-and-exception monad, and the
    two external libraries (PyMuPDF for documents and rasterisation, Qt for
    images and widgets) are modelled by the small part of their behaviour
    the methods rely on. *)

From Stdlib Require Import ZArith QArith Qminmax Qround String List Bool Lia Lqa.
From Stdlib Require Import Floats.
Import ListNotations.
Open Scope Z_scope.

(** ** Exceptions and results *)

(** Every exception the methods meet is caught by [except Exception], so
    one constructor carrying the message is enough. *)
Inductive Exn : Type :=
| Exception (msg : string).

Inductive result (A : Type) : Type :=
| Ok (a : A)
| Err (e : Exn).
Arguments Ok {A} a.
Arguments Err {A} e.

(** ** PyMuPDF: pixmaps, pages and documents *)

(** [fitz.Pixmap] as [render_all_pages] reads it: the sample bytes (each a
    value in 0..255) and the geometry. *)
Record Pixmap : Type := mkPixmap {
  samples : list Z;
  width : Z;
  height : Z;
  stride : Z
}.

(** A page is what [page.get_pixmap(matrix=fitz.Matrix(z, z), alpha=False)]
    makes of it: a pixmap, or an exception.  The rasteriser is a function of
    the page and the zoom factor only.  The zoom factor, a Python float, is
    a rational here; module [Binary64] below has the arithmetic of the zoom
    commands on floats. *)
Record Page : Type := mkPage {
  get_pixmap : Q -> result Pixmap
}.

(** An open [fitz.Document] and whether [close()] was called on it. *)
Record Document : Type := mkDocument {
  pages : list Page;
  is_closed : bool
}.

Definition document_closed : Exn := Exception "document closed".

(** [len(doc)]: the page count; PyMuPDF raises on a closed document. *)
Definition doc_len (d : Document) : result Z :=
  if is_closed d then Err document_closed
  else Ok (Z.of_nat (length (pages d))).

(** [doc.close()]. *)
Definition doc_close (d : Document) : result Document :=
  if is_closed d then Err document_closed
  else Ok (mkDocument (pages d) true).

(** [doc[i]] for the indices [range(len(doc))] yields. *)
Definition doc_getitem (d : Document) (i : Z) : result Page :=
  if is_closed d then Err document_closed
  else if (0 <=? i) && (i <? Z.of_nat (length (pages d))) then
    match nth_error (pages d) (Z.to_nat i) with
    | Some p => Ok p
    | None => Err (Exception "page not in document")
    end
  else Err (Exception "page not in document").

(** ** Qt: images *)

Inductive Format : Type :=
| Format_RGB888.

Record QImage : Type := mkQImage {
  img_data : list Z;
  img_width : Z;
  img_height : Z;
  img_bytesPerLine : Z;
  img_format : Format
}.

(** [QImage.invertPixels()] on a 24-bit image flips every bit of every byte
    of the buffer. *)
Definition invertPixels (img : QImage) : QImage :=
  mkQImage (map (fun c => Z.lxor c 255) (img_data img))
           (img_width img) (img_height img) (img_bytesPerLine img)
           (img_format img).

(** [QPixmap.fromImage(img)] keeps the pixels of [img]. *)
Definition QPixmap : Type := QImage.
Definition fromImage (img : QImage) : QPixmap := img.

(** ** Qt: the widgets the methods use *)

(** A [QLabel] showing a pixmap.  Its [height()] is taken to be the height
    of the pixmap it shows, which is the size the layout gives a label whose
    size hint is its pixmap. *)
Record QLabel : Type := mkQLabel {
  label_pixmap : QPixmap
}.

Definition label_height (w : QLabel) : Z := img_height (label_pixmap w).

(** An item of the [QVBoxLayout]: a widget, or the stretch added after the
    last page.  [item.widget()] is [None] for the stretch. *)
Inductive LayoutItem : Type :=
| ItemWidget (w : QLabel)
| ItemStretch.

Definition item_widget (it : LayoutItem) : option QLabel :=
  match it with
  | ItemWidget w => Some w
  | ItemStretch => None
  end.

(** [self.pages_layout.setSpacing(10)] in [init_ui]. *)
Definition layout_spacing : Z := 10.

(** The page-number [QSpinBox]: its range, its value and whether
    [blockSignals(True)] is in force. *)
Record QSpinBox : Type := mkQSpinBox {
  spin_minimum : Z;
  spin_maximum : Z;
  spin_value : Z;
  spin_blocked : bool
}.

(** The text of the colour toggle button and the style of the scroll area,
    which [toggle_color_invert] sets together. *)
Inductive Theme : Type :=
| DarkTheme    (* dark mode on, background #2b2b2b *)
| LightTheme.  (* normal mode, background #ffffff *)

(** What the methods do to the outside, in the order they do it. *)
Inductive Event : Type :=
| EvClose                          (* pdf_document.close() *)
| EvOpen (path : string)           (* fitz.open(path) returned *)
| EvGetPixmap (page_num : Z) (zoom : Q)   (* page.get_pixmap called *)
| EvSetScroll (pos : Z)            (* verticalScrollBar().setValue(pos) *)
| EvCritical (msg : string)        (* QMessageBox.critical *)
| EvWarning (msg : string).        (* QMessageBox.warning *)

(** ** The viewer *)

Record PDFViewer : Type := mkPDFViewer {
  pdf_document : option Document;
  current_page : Z;
  zoom_level : Q;
  invert_colors : bool;
  page_images : list QPixmap;
  pages_layout : list LayoutItem;
  scroll_value : Z;
  page_spinbox : QSpinBox;
  page_count_label : Z;
  zoom_label : Z;
  theme : Theme;
  status_label : option string;
  events : list Event
}.

(** Field updates. *)
Definition set_pdf_document (v : option Document) (s : PDFViewer) : PDFViewer :=
  mkPDFViewer v (current_page s) (zoom_level s) (invert_colors s)
    (page_images s) (pages_layout s) (scroll_value s) (page_spinbox s)
    (page_count_label s) (zoom_label s) (theme s) (status_label s) (events s).

Definition set_current_page (v : Z) (s : PDFViewer) : PDFViewer :=
  mkPDFViewer (pdf_document s) v (zoom_level s) (invert_colors s)
    (page_images s) (pages_layout s) (scroll_value s) (page_spinbox s)
    (page_count_label s) (zoom_label s) (theme s) (status_label s) (events s).

Definition set_zoom_level (v : Q) (s : PDFViewer) : PDFViewer :=
  mkPDFViewer (pdf_document s) (current_page s) v (invert_colors s)
    (page_images s) (pages_layout s) (scroll_value s) (page_spinbox s)
    (page_count_label s) (zoom_label s) (theme s) (status_label s) (events s).

Definition set_invert_colors (v : bool) (s : PDFViewer) : PDFViewer :=
  mkPDFViewer (pdf_document s) (current_page s) (zoom_level s) v
    (page_images s) (pages_layout s) (scroll_value s) (page_spinbox s)
    (page_count_label s) (zoom_label s) (theme s) (status_label s) (events s).

Definition set_page_images (v : list QPixmap) (s : PDFViewer) : PDFViewer :=
  mkPDFViewer (pdf_document s) (current_page s) (zoom_level s)
    (invert_colors s) v (pages_layout s) (scroll_value s) (page_spinbox s)
    (page_count_label s) (zoom_label s) (theme s) (status_label s) (events s).

Definition set_pages_layout (v : list LayoutItem) (s : PDFViewer) : PDFViewer :=
  mkPDFViewer (pdf_document s) (current_page s) (zoom_level s)
    (invert_colors s) (page_images s) v (scroll_value s) (page_spinbox s)
    (page_count_label s) (zoom_label s) (theme s) (status_label s) (events s).

Definition set_scroll_value (v : Z) (s : PDFViewer) : PDFViewer :=
  mkPDFViewer (pdf_document s) (current_page s) (zoom_level s)
    (invert_colors s) (page_images s) (pages_layout s) v (page_spinbox s)
    (page_count_label s) (zoom_label s) (theme s) (status_label s) (events s).

Definition set_page_spinbox (v : QSpinBox) (s : PDFViewer) : PDFViewer :=
  mkPDFViewer (pdf_document s) (current_page s) (zoom_level s)
    (invert_colors s) (page_images s) (pages_layout s) (scroll_value s) v
    (page_count_label s) (zoom_label s) (theme s) (status_label s) (events s).

Definition set_page_count_label (v : Z) (s : PDFViewer) : PDFViewer :=
  mkPDFViewer (pdf_document s) (current_page s) (zoom_level s)
    (invert_colors s) (page_images s) (pages_layout s) (scroll_value s)
    (page_spinbox s) v (zoom_label s) (theme s) (status_label s) (events s).

Definition set_zoom_label (v : Z) (s : PDFViewer) : PDFViewer :=
  mkPDFViewer (pdf_document s) (current_page s) (zoom_level s)
    (invert_colors s) (page_images s) (pages_layout s) (scroll_value s)
    (page_spinbox s) (page_count_label s) v (theme s) (status_label s)
    (events s).

Definition set_theme (v : Theme) (s : PDFViewer) : PDFViewer :=
  mkPDFViewer (pdf_document s) (current_page s) (zoom_level s)
    (invert_colors s) (page_images s) (pages_layout s) (scroll_value s)
    (page_spinbox s) (page_count_label s) (zoom_label s) v (status_label s)
    (events s).

Definition set_status_label (v : option string) (s : PDFViewer) : PDFViewer :=
  mkPDFViewer (pdf_document s) (current_page s) (zoom_level s)
    (invert_colors s) (page_images s) (pages_layout s) (scroll_value s)
    (page_spinbox s) (page_count_label s) (zoom_label s) (theme s) v
    (events s).

(** The newest event is the head of [events]. *)
Definition log_event (e : Event) (s : PDFViewer) : PDFViewer :=
  mkPDFViewer (pdf_document s) (current_page s) (zoom_level s)
    (invert_colors s) (page_images s) (pages_layout s) (scroll_value s)
    (page_spinbox s) (page_count_label s) (zoom_label s) (theme s)
    (status_label s) (e :: events s).

(** ** The monad of the methods

    A method reads and writes the viewer and may raise.  What it wrote
    before it raised stays written, as in Python. *)
Definition M (A : Type) : Type := PDFViewer -> result A * PDFViewer.

Definition ret {A : Type} (a : A) : M A := fun s => (Ok a, s).

Definition bind {A B : Type} (m : M A) (k : A -> M B) : M B :=
  fun s =>
    match m s with
    | (Ok a, s') => k a s'
    | (Err e, s') => (Err e, s')
    end.

Definition lift {A : Type} (r : result A) : M A := fun s => (r, s).

Definition raise {A : Type} (e : Exn) : M A := fun s => (Err e, s).

Definition gets {A : Type} (f : PDFViewer -> A) : M A := fun s => (Ok (f s), s).

Definition modify (f : PDFViewer -> PDFViewer) : M unit :=
  fun s => (Ok tt, f s).

(** [try: body except Exception as e: handler e]. *)
Definition try_except {A : Type} (body : M A) (handler : Exn -> M A) : M A :=
  fun s =>
    match body s with
    | (Ok a, s') => (Ok a, s')
    | (Err e, s') => handler e s'
    end.

Declare Scope viewer_scope.
Delimit Scope viewer_scope with viewer.
Notation "x <- m ;; k" := (bind m (fun x => k))
  (at level 61, m at next level, right associativity) : viewer_scope.
Notation "m ;; k" := (bind m (fun _ => k))
  (at level 61, right associativity) : viewer_scope.
Open Scope viewer_scope.

(** [for x in l: body x]. *)
Fixpoint for_each {A : Type} (l : list A) (body : A -> M unit) : M unit :=
  match l with
  | [] => ret tt
  | x :: rest => body x ;; for_each rest body
  end.

(** [range(n)]. *)
Definition range (n : Z) : list Z := map Z.of_nat (seq 0 (Z.to_nat n)).

(** [str(e)]. *)
Definition str (e : Exn) : string :=
  match e with Exception msg => msg end.

(** The truth value of [self.pdf_document]: [None] is false, and a document,
    which defines [__len__] and no [__bool__], is true when it has a page. *)
Definition truthy (o : option Document) : result bool :=
  match o with
  | None => Ok false
  | Some d =>
      match doc_len d with
      | Ok n => Ok (negb (n =? 0))
      | Err e => Err e
      end
  end.

(** [self.pdf_document] where the method has already found it true. *)
Definition the_document : M Document :=
  fun s =>
    match pdf_document s with
    | Some d => (Ok d, s)
    | None => (Err (Exception "'NoneType' object has no len()"), s)
    end.

(** [len(self.pdf_document)]. *)
Definition len_document : M Z :=
  d <- the_document ;; lift (doc_len d).

(** [int(x)] of a float: truncation towards zero. *)
Definition py_int (x : Q) : Z := Z.quot (Qnum x) (Zpos (Qden x)).

(** ** [__init__] *)

(** The state [__init__] and [init_ui] leave: no document, page 0, zoom 1.0,
    colour inversion on, an empty gallery, and a spin box whose minimum was
    set to 1 before its signal was connected. *)
Definition init : PDFViewer :=
  mkPDFViewer None 0 1.0%Q true [] [] 0 (mkQSpinBox 1 99 1 false)
    0 100 DarkTheme None [].

(** ** [render_all_pages] *)

(** [while self.pages_layout.count(): item = self.pages_layout.takeAt(0)]. *)
Fixpoint take_all (l : list LayoutItem) : list LayoutItem :=
  match l with
  | [] => []
  | _ :: rest => take_all rest
  end.

(** [QImage(pix.samples, pix.width, pix.height, pix.stride, Format_RGB888)]. *)
Definition image_of_pixmap (pix : Pixmap) : QImage :=
  mkQImage (samples pix) (width pix) (height pix) (stride pix) Format_RGB888.

(** The body of the loop over [page_num]. *)
Definition render_one (page_num : Z) : M unit :=
  d <- the_document ;;
  page <- lift (doc_getitem d page_num) ;;
  zoom <- gets zoom_level ;;
  modify (log_event (EvGetPixmap page_num zoom)) ;;
  pix <- lift (get_pixmap page zoom) ;;
  let img := image_of_pixmap pix in
  invert <- gets invert_colors ;;
  let img := if invert then invertPixels img else img in
  let pixmap := fromImage img in
  modify (fun s => set_page_images (page_images s ++ [pixmap]) s) ;;
  let page_label := mkQLabel pixmap in
  modify (fun s => set_pages_layout (pages_layout s ++ [ItemWidget page_label]) s).

Definition render_all_pages : M unit :=
  doc <- gets pdf_document ;;
  has_doc <- lift (truthy doc) ;;
  if negb has_doc then ret tt
  else
    modify (fun s => set_pages_layout (take_all (pages_layout s)) s) ;;
    modify (set_page_images []) ;;
    try_except
      (n <- len_document ;;
       for_each (range n) render_one ;;
       modify (fun s => set_pages_layout (pages_layout s ++ [ItemStretch]) s))
      (fun e => modify (log_event (EvWarning (str e)))).

(** [render_page]: re-render all pages (when the zoom or the colour mode
    changes). *)
Definition render_page : M unit := render_all_pages.

(** ** Navigation *)

(** [QSpinBox.setValue(v)] up to the signal: the value is brought into the
    range and stored; the result is the value [valueChanged] carries, when
    the value changed and signals are not blocked. *)
Definition spin_store (v : Z) : M (option Z) :=
  fun s =>
    let sb := page_spinbox s in
    let v' := Z.max (spin_minimum sb) (Z.min v (spin_maximum sb)) in
    if v' =? spin_value sb then (Ok None, s)
    else
      (Ok (if spin_blocked sb then None else Some v'),
       set_page_spinbox
         (mkQSpinBox (spin_minimum sb) (spin_maximum sb) v' (spin_blocked sb)) s).

(** [self.page_spinbox.blockSignals(b)]. *)
Definition spin_blockSignals (b : bool) : M unit :=
  modify (fun s =>
    let sb := page_spinbox s in
    set_page_spinbox
      (mkQSpinBox (spin_minimum sb) (spin_maximum sb) (spin_value sb) b) s).

(** The loop of [scroll_to_page] that adds up the offset. *)
Definition scroll_position_of (layout : list LayoutItem) (page_num : Z) : Z :=
  fold_left
    (fun scroll_position i =>
       if i <? Z.of_nat (length layout) then
         match nth_error layout (Z.to_nat i) with
         | Some item =>
             match item_widget item with
             | Some widget => scroll_position + (label_height widget + layout_spacing)
             | None => scroll_position
             end
         | None => scroll_position
         end
       else scroll_position)
    (range page_num) 0.

Definition scroll_to_page (page_num : Z) : M unit :=
  images <- gets page_images ;;
  if (page_num <? 0) || (page_num >=? Z.of_nat (length images)) then ret tt
  else
    layout <- gets pages_layout ;;
    let scroll_position := scroll_position_of layout page_num in
    modify (set_scroll_value scroll_position) ;;
    modify (log_event (EvSetScroll scroll_position)) ;;
    spin_blockSignals true ;;
    _ <- spin_store (page_num + 1) ;;
    spin_blockSignals false.

Definition prev_page : M unit :=
  doc <- gets pdf_document ;;
  has_doc <- lift (truthy doc) ;;
  cp <- gets current_page ;;
  if has_doc && (cp >? 0) then
    modify (set_current_page (cp - 1)) ;;
    cp' <- gets current_page ;;
    scroll_to_page cp'
  else ret tt.

Definition next_page : M unit :=
  doc <- gets pdf_document ;;
  has_doc <- lift (truthy doc) ;;
  if has_doc then
    cp <- gets current_page ;;
    n <- len_document ;;
    if cp <? n - 1 then
      modify (set_current_page (cp + 1)) ;;
      cp' <- gets current_page ;;
      scroll_to_page cp'
    else ret tt
  else ret tt.

Definition jump_to_page (page_num : Z) : M unit :=
  doc <- gets pdf_document ;;
  has_doc <- lift (truthy doc) ;;
  if has_doc then
    modify (set_current_page (page_num - 1)) ;;
    cp <- gets current_page ;;
    scroll_to_page cp
  else ret tt.

(** [self.page_spinbox.setValue(v)]: [valueChanged] is connected to
    [jump_to_page]. *)
Definition spin_setValue (v : Z) : M unit :=
  signal <- spin_store v ;;
  match signal with
  | Some v' => jump_to_page v'
  | None => ret tt
  end.

(** [self.page_spinbox.setMaximum(m)]: the minimum gives way to a smaller
    maximum, and the value is brought into the new range. *)
Definition spin_setMaximum (m : Z) : M unit :=
  modify (fun s =>
    let sb := page_spinbox s in
    set_page_spinbox
      (mkQSpinBox (Z.min (spin_minimum sb) m) m (spin_value sb) (spin_blocked sb)) s) ;;
  v <- gets (fun s => spin_value (page_spinbox s)) ;;
  spin_setValue v.

(** ** Zoom and colour inversion *)

Definition zoom_in : M unit :=
  modify (fun s => set_zoom_level (Qmin (zoom_level s + 0.2) 5.0) s) ;;
  modify (fun s => set_zoom_label (py_int (zoom_level s * 100)) s) ;;
  render_page.

Definition zoom_out : M unit :=
  modify (fun s => set_zoom_level (Qmax (zoom_level s - 0.2) 0.2) s) ;;
  modify (fun s => set_zoom_label (py_int (zoom_level s * 100)) s) ;;
  render_page.

Definition toggle_color_invert : M unit :=
  modify (fun s => set_invert_colors (negb (invert_colors s)) s) ;;
  invert <- gets invert_colors ;;
  (if invert then modify (set_theme DarkTheme)
   else modify (set_theme LightTheme)) ;;
  render_page.

(** ** Input dispatch *)

(** The keys [keyPressEvent] tells apart. *)
Inductive Key : Type :=
| Key_Right | Key_Down | Key_PageDown | Key_Space
| Key_Left | Key_Up | Key_PageUp
| Key_Home | Key_End
| Key_Plus | Key_Equal | Key_Minus
| Key_I | Key_P
| Key_other.

Definition keyPressEvent (key : Key) : M unit :=
  doc <- gets pdf_document ;;
  has_doc <- lift (truthy doc) ;;
  if negb has_doc then ret tt
  else
    match key with
    | Key_Right | Key_Down | Key_PageDown | Key_Space => next_page
    | Key_Left | Key_Up | Key_PageUp => prev_page
    | Key_Home =>
        (* jump to the first page *)
        modify (set_current_page 0) ;;
        render_page
    | Key_End =>
        (* jump to the last page *)
        n <- len_document ;;
        modify (set_current_page (n - 1)) ;;
        render_page
    | Key_Plus | Key_Equal => zoom_in
    | Key_Minus => zoom_out
    | Key_I => toggle_color_invert
    | Key_P =>
        (* self.toggle_auto_play is not defined *)
        raise (Exception "'PDFViewer' object has no attribute 'toggle_auto_play'")
    | Key_other => ret tt
    end.

(** [wheelEvent]: with Control held alone, the wheel zooms by the sign of
    its vertical angle delta. *)
Definition wheelEvent (control : bool) (delta : Z) : M unit :=
  doc <- gets pdf_document ;;
  has_doc <- lift (truthy doc) ;;
  if negb has_doc then ret tt
  else if control then
    (if delta >? 0 then zoom_in else zoom_out)
  else ret tt.

(** [self.pdf_document.close()]. *)
Definition close_document : M unit :=
  d <- the_document ;;
  d' <- lift (doc_close d) ;;
  modify (set_pdf_document (Some d')) ;;
  modify (log_event EvClose).

Definition closeEvent : M unit :=
  doc <- gets pdf_document ;;
  has_doc <- lift (truthy doc) ;;
  if has_doc then close_document else ret tt.

(** ** [open_file] *)

Section OpenFile.

(** [fitz.open]: the pages of the file at a path, or the exception raised
    for a path that cannot be read or is no document. *)
Variable fitz_open : string -> result (list Page).

(** [file_path] is what the file dialog returned, empty when the user
    cancelled it. *)
Definition open_file (file_path : string) : M unit :=
  if String.eqb file_path "" then ret tt
  else
    try_except
      (doc <- gets pdf_document ;;
       has_doc <- lift (truthy doc) ;;
       (if has_doc then close_document else ret tt) ;;
       new_pages <- lift (fitz_open file_path) ;;
       modify (set_pdf_document (Some (mkDocument new_pages false))) ;;
       modify (log_event (EvOpen file_path)) ;;
       modify (set_current_page 0) ;;
       page_count <- len_document ;;
       spin_setMaximum page_count ;;
       modify (set_page_count_label page_count) ;;
       spin_setValue 1 ;;
       render_all_pages ;;
       modify (set_status_label (Some file_path)))
      (fun e => modify (log_event (EvCritical (str e)))).

End OpenFile.

(** ** Running a method *)

Definition exec {A : Type} (m : M A) (s : PDFViewer) : PDFViewer := snd (m s).

Definition outcome {A : Type} (m : M A) (s : PDFViewer) : result A := fst (m s).

(** * Definitions the properties are stated with *)

(** A document the methods take for open: not closed, with a page. *)
Definition usable (d : Document) : Prop :=
  is_closed d = false /\ pages d <> [].

(** [len(doc)] of a document that is not closed. *)
Definition page_count (d : Document) : Z := Z.of_nat (length (pages d)).

(** The bitmap the loop body makes of one page. *)
Definition render_image (invert : bool) (zoom : Q) (p : Page) : result QPixmap :=
  match get_pixmap p zoom with
  | Ok pix =>
      Ok (fromImage (if invert then invertPixels (image_of_pixmap pix)
                     else image_of_pixmap pix))
  | Err e => Err e
  end.

(** The bitmaps of the pages up to the first one that fails, and its
    exception. *)
Fixpoint render_prefix (invert : bool) (zoom : Q) (ps : list Page)
  : list QPixmap * option Exn :=
  match ps with
  | [] => ([], None)
  | p :: rest =>
      match render_image invert zoom p with
      | Ok img =>
          let (imgs, err) := render_prefix invert zoom rest in (img :: imgs, err)
      | Err e => ([], Some e)
      end
  end.

(** How many pages [get_pixmap] was called on. *)
Definition calls (r : list QPixmap * option Exn) : nat :=
  match snd r with
  | None => length (fst r)
  | Some _ => S (length (fst r))
  end.

(** The [get_pixmap] calls on pages [k .. k+n-1], newest first. *)
Definition pixmap_events (zoom : Q) (k n : nat) : list Event :=
  rev (map (fun i => EvGetPixmap (Z.of_nat i) zoom) (seq k n)).

(** The layout items of the labels that show [imgs]. *)
Definition labels (imgs : list QPixmap) : list LayoutItem :=
  map (fun img => ItemWidget (mkQLabel img)) imgs.

(** The viewer after the loop added [imgs] and logged [evs]. *)
Definition add_rendered (s : PDFViewer) (imgs : list QPixmap) (evs : list Event)
  : PDFViewer :=
  mkPDFViewer (pdf_document s) (current_page s) (zoom_level s) (invert_colors s)
    (page_images s ++ imgs) (pages_layout s ++ labels imgs)
    (scroll_value s) (page_spinbox s) (page_count_label s) (zoom_label s)
    (theme s) (status_label s) (evs ++ events s).

(** How a loop that met [err] ends. *)
Definition result_of_error (err : option Exn) : result unit :=
  match err with
  | None => Ok tt
  | Some e => Err e
  end.

(** The viewer after [render_all_pages] rebuilt the gallery of [d]. *)
Definition rebuilt (d : Document) (s : PDFViewer) : PDFViewer :=
  let r := render_prefix (invert_colors s) (zoom_level s) (pages d) in
  mkPDFViewer (pdf_document s) (current_page s) (zoom_level s) (invert_colors s)
    (fst r)
    (labels (fst r) ++ match snd r with None => [ItemStretch] | Some _ => [] end)
    (scroll_value s) (page_spinbox s) (page_count_label s) (zoom_label s)
    (theme s) (status_label s)
    (match snd r with None => [] | Some e => [EvWarning (str e)] end
     ++ pixmap_events (zoom_level s) 0 (calls r) ++ events s).

(** A sample of a pixmap. *)
Definition is_byte (c : Z) : Prop := 0 <= c <= 255.

(** The viewer after [scroll_to_page p] passed its guard. *)
Definition scrolled (p : Z) (s : PDFViewer) : PDFViewer :=
  let pos := scroll_position_of (pages_layout s) p in
  let sb := page_spinbox s in
  mkPDFViewer (pdf_document s) (current_page s) (zoom_level s) (invert_colors s)
    (page_images s) (pages_layout s) pos
    (mkQSpinBox (spin_minimum sb) (spin_maximum sb)
       (Z.max (spin_minimum sb) (Z.min (p + 1) (spin_maximum sb))) false)
    (page_count_label s) (zoom_label s) (theme s) (status_label s)
    (EvSetScroll pos :: events s).

(** The guard of [scroll_to_page], negated. *)
Definition in_gallery (p : Z) (s : PDFViewer) : bool :=
  negb ((p <? 0) || (p >=? Z.of_nat (length (page_images s)))).

(** The part of the viewer a gallery rebuild determines, and the document
    and settings it is determined by. *)
Definition gallery_view (s : PDFViewer)
  : option Document * Q * bool * list QPixmap * list LayoutItem :=
  (pdf_document s, zoom_level s, invert_colors s, page_images s, pages_layout s).





(** The rasteriser of PyMuPDF yields bytes. *)
Definition bytes_ok (ps : list Page) : Prop :=
  forall p zoom pix,
    In p ps -> get_pixmap p zoom = Ok pix -> Forall is_byte (samples pix).

(** [b] is the inverse of the image [a] of bytes. *)
Definition inverse_of (a b : QImage) : Prop :=
  b = invertPixels a /\ Forall is_byte (img_data a).

(** [m] returns from [s] without raising and without touching the
    document, the settings, the gallery or the layout. *)
Definition keeps_gallery (m : M unit) (s : PDFViewer) : Prop :=
  exists s', m s = (Ok tt, s') /\ gallery_view s' = gallery_view s.

(** No document is open, or the open one has not been closed. *)
Definition not_closed (s : PDFViewer) : Prop :=
  match pdf_document s with
  | Some d => is_closed d = false
  | None => True
  end.

(** The viewer after [open_file] closed the document it had, if it had one
    with a page. *)
Definition after_close (s : PDFViewer) : PDFViewer :=
  match pdf_document s with
  | Some d =>
      if negb (page_count d =? 0)
      then log_event EvClose (set_pdf_document (Some (mkDocument (pages d) true)) s)
      else s
  | None => s
  end.

(** What the user can do to the viewer.  Opening a file carries what the
    file dialog returned and what [fitz.open] makes of that path at that
    moment. *)
Inductive Command : Type :=
| CmdOpen (file_path : string) (opened : result (list Page))
| CmdKey (key : Key)
| CmdWheel (control : bool) (delta : Z)
| CmdPrev
| CmdNext
| CmdSpin (page_num : Z)
| CmdZoomIn
| CmdZoomOut
| CmdToggle.

(** The method a command runs. *)
Definition run (c : Command) : M unit :=
  match c with
  | CmdOpen file_path opened => open_file (fun _ => opened) file_path
  | CmdKey key => keyPressEvent key
  | CmdWheel control delta => wheelEvent control delta
  | CmdPrev => prev_page
  | CmdNext => next_page
  | CmdSpin page_num => spin_setValue page_num
  | CmdZoomIn => zoom_in
  | CmdZoomOut => zoom_out
  | CmdToggle => toggle_color_invert
  end.

(** The viewer after the commands [cmds], from start-up. *)
Definition run_all (cmds : list Command) : PDFViewer :=
  fold_left (fun s c => exec (run c) s) cmds init.

(** The layout starts with the labels of the gallery. *)
Definition gallery_shown (s : PDFViewer) : Prop :=
  exists rest, pages_layout s = labels (page_images s) ++ rest.

(** The gallery is the one a rebuild makes of the open document under the
    settings in force. *)
Definition gallery_current (s : PDFViewer) : Prop :=
  forall d, pdf_document s = Some d -> usable d ->
    page_images s =
    fst (render_prefix (invert_colors s) (zoom_level s) (pages d)).

(** The invariant of the gallery. *)
Definition consistent (s : PDFViewer) : Prop :=
  gallery_shown s /\ gallery_current s.

(** The heights, each with the spacing of the layout, of the bitmaps
    before page [p]. *)
Definition offset_before (imgs : list QPixmap) (p : Z) : Z :=
  fold_right Z.add 0
    (map (fun img => img_height img + layout_spacing) (firstn (Z.to_nat p) imgs)).

(** The viewer [open_file] rebuilds the gallery of, at start-up. *)
Definition opened_at_init (path : string) (ps : list Page) : PDFViewer :=
  mkPDFViewer (Some (mkDocument ps false)) 0 1.0%Q true [] [] 0
    (mkQSpinBox 1 (Z.of_nat (length ps)) 1 false)
    (Z.of_nat (length ps)) 100 DarkTheme None [EvOpen path].

(** ** The zoom level as a binary64 float

    [zoom_level] is a Python float.  The viewer above computes with
    rationals; here are the same two updates on binary64 floats, and the
    zoom levels they reach from 1.0. *)

Module Binary64.

(** The nearest float to 0.2, which is what the literal [0.2] denotes. *)
Definition step : float := 0x1.999999999999ap-3%float.

(** [min(a, b)] and [max(a, b)] of Python: [b] only when strictly better. *)
Definition py_min (a b : float) : float := if PrimFloat.ltb b a then b else a.
Definition py_max (a b : float) : float := if PrimFloat.ltb a b then b else a.

(** [min(self.zoom_level + 0.2, 5.0)] and [max(self.zoom_level - 0.2, 0.2)]. *)
Definition zoom_in_level (z : float) : float := py_min (z + step) 5.0%float.
Definition zoom_out_level (z : float) : float := py_max (z - step) step.

Definition mem (x : float) (l : list float) : bool :=
  existsb (fun y => PrimFloat.eqb x y) l.

(** The levels reached from [todo], given those already [seen]. *)
Fixpoint close (fuel : nat) (todo seen : list float) : list float :=
  match fuel with
  | O => seen
  | S fuel' =>
      match todo with
      | [] => seen
      | x :: rest =>
          if mem x seen then close fuel' rest seen
          else close fuel' (zoom_in_level x :: zoom_out_level x :: rest) (x :: seen)
      end
  end.

(** The zoom levels the viewer can have: those reached from 1.0. *)
Definition levels : list float := Eval vm_compute in close 1000 [1.0%float] [].

(** The tolerance the round trip is measured with, 2^-30. *)
Definition tolerance : float := 0x1p-30%float.

End Binary64.

(** ** Example documents *)

Module Examples.

(** A page of one pixel of colour (a, b, c) whose rendered height is its
    height [h] scaled by the zoom factor. *)
Definition plain_page (h a b c : Z) : Page :=
  mkPage (fun zoom => Ok (mkPixmap [a; b; c] 1 (py_int (inject_Z h * zoom)) 3)).

(** A page the rasteriser fails on. *)
Definition broken_page : Page :=
  mkPage (fun _ => Err (Exception "cannot render page")).

Definition three_pages : list Page :=
  [plain_page 100 0 10 255; plain_page 200 1 2 3; plain_page 300 7 8 9].

Definition second_broken : list Page :=
  [plain_page 100 0 10 255; broken_page; plain_page 300 7 8 9].

(** A file system with two documents. *)
Definition files (path : string) : result (list Page) :=
  if String.eqb path "a.pdf" then Ok three_pages
  else if String.eqb path "b.pdf" then Ok second_broken
  else Err (Exception "no such file").

(** The viewer after "a.pdf" was opened at start-up. *)
Definition viewing_a : PDFViewer := exec (open_file files "a.pdf") init.

(** The viewer after "b.pdf" was opened at start-up. *)
Definition viewing_b : PDFViewer := exec (open_file files "b.pdf") init.

End Examples.

(** * Definitions of the further properties *)

(** [m] takes every state to one that [R] relates it to, whether it
    returns or raises. *)
Definition keeps {A : Type} (R : PDFViewer -> PDFViewer -> Prop) (m : M A) : Prop :=
  forall s, R s (exec m s).

(** The zoom level is within its bounds, the zoom label shows it as a
    percentage, and the theme is the one of the inversion setting. *)
Definition settled (s : PDFViewer) : Prop :=
  (0.2 <= zoom_level s <= 5.0)%Q /\
  zoom_label s = py_int (zoom_level s * 100) /\
  theme s = (if invert_colors s then DarkTheme else LightTheme).

(** [s'] is settled when [s] is. *)
Definition stays_settled (s s' : PDFViewer) : Prop := settled s -> settled s'.

(** [m] run [n] times. *)
Fixpoint times (n : nat) (m : M unit) (s : PDFViewer) : PDFViewer :=
  match n with
  | O => s
  | S n' => exec m (times n' m s)
  end.

(** [s'] differs from [s] at most in the current page, the scroll bar and
    the spin box: document, settings, gallery and layout are those of [s],
    and nothing was logged but the scroll bar being set. *)
Definition only_scrolled (s s' : PDFViewer) : Prop :=
  gallery_view s' = gallery_view s /\
  exists later,
    events s' = later ++ events s /\
    Forall (fun e => exists pos, e = EvSetScroll pos) later.

(** The spin box emits its signals and counts pages from 1 at most. *)
Definition spin_ready (s : PDFViewer) : Prop :=
  spin_blocked (page_spinbox s) = false /\ spin_minimum (page_spinbox s) <= 1.

(** The spin box of [s'] is ready when that of [s] is. *)
Definition stays_spin_ready (s s' : PDFViewer) : Prop :=
  spin_ready s -> spin_ready s'.

(** An event of the life of a document: opened, closed, or failed to
    open. *)
Definition is_lifecycle (e : Event) : Prop :=
  match e with
  | EvClose | EvOpen _ | EvCritical _ => True
  | _ => False
  end.

(** [s'] logged events on top of those of [s], none of the life of a
    document, and has the labels of [s]. *)
Definition no_lifecycle (s s' : PDFViewer) : Prop :=
  page_count_label s' = page_count_label s /\
  status_label s' = status_label s /\
  exists later,
    events s' = later ++ events s /\ Forall (fun e => ~ is_lifecycle e) later.

(** The two zoom commands. *)
Inductive ZoomCommand : Type :=
| ZoomIn
| ZoomOut.

(** The float zoom level after the zoom commands [cmds], from the 1.0 of
    [__init__]. *)
Definition binary64_level (cmds : list ZoomCommand) : float :=
  fold_left
    (fun z c =>
       match c with
       | ZoomIn => Binary64.zoom_in_level z
       | ZoomOut => Binary64.zoom_out_level z
       end)
    cmds 1.0%float.

(** [int(x)] of a float: its binary expansion cut at the point. *)
Definition binary64_int (x : float) : Z :=
  match Prim2SF x with
  | S754_finite sign m e =>
      let v := if 0 <=? e then Z.shiftl (Zpos m) e else Z.shiftr (Zpos m) (- e) in
      if sign then - v else v
  | _ => 0
  end.

(** The percentage [zoom_in] and [zoom_out] write into the zoom label,
    [int(self.zoom_level * 100)]. *)
Definition binary64_label (z : float) : Z := binary64_int (z * 100)%float.

(** The layout holds the labels of the gallery, in order, and after them
    nothing or the one stretch. *)
Definition layout_exact (s : PDFViewer) : Prop :=
  pages_layout s = labels (page_images s) \/
  pages_layout s = labels (page_images s) ++ [ItemStretch].

(** The layout of [s'] is exact when that of [s] is. *)
Definition stays_layout_exact (s s' : PDFViewer) : Prop :=
  layout_exact s -> layout_exact s'.




(** * Properties *)

(** ** The monad *)

Lemma bind_ok {A B : Type} (m : M A) (k : A -> M B) (s s' : PDFViewer) (a : A) :
  m s = (Ok a, s') -> bind m k s = k a s'.
Proof. intros H. unfold bind. rewrite H. reflexivity. Qed.

Lemma bind_err {A B : Type} (m : M A) (k : A -> M B) (s s' : PDFViewer) (e : Exn) :
  m s = (Err e, s') -> bind m k s = (Err e, s').
Proof. intros H. unfold bind. rewrite H. reflexivity. Qed.

Lemma take_all_nil (l : list LayoutItem) : take_all l = [].
Proof. induction l as [|it l IH]; simpl; auto. Qed.

(** ** What a document looks like to the methods *)

Lemma page_count_pos (d : Document) : pages d <> [] -> 0 < page_count d.
Proof.
  unfold page_count. destruct (pages d); [congruence | simpl; lia].
Qed.

Lemma truthy_usable (d : Document) : usable d -> truthy (Some d) = Ok true.
Proof.
  intros [Hc Hp]. unfold truthy, doc_len. rewrite Hc.
  pose proof (page_count_pos d Hp) as H. unfold page_count in H.
  destruct (Z.eqb_spec (Z.of_nat (length (pages d))) 0); [lia | reflexivity].
Qed.

Lemma truthy_empty (d : Document) :
  is_closed d = false -> pages d = [] -> truthy (Some d) = Ok false.
Proof. intros Hc Hp. unfold truthy, doc_len. rewrite Hc, Hp. reflexivity. Qed.

Lemma doc_getitem_app (d : Document) (pre post : list Page) (p : Page) :
  is_closed d = false -> pages d = pre ++ p :: post ->
  doc_getitem d (Z.of_nat (length pre)) = Ok p.
Proof.
  intros Hc Hp. unfold doc_getitem. rewrite Hc, Hp.
  rewrite length_app. simpl length.
  replace ((0 <=? Z.of_nat (length pre)) &&
           (Z.of_nat (length pre) <? Z.of_nat (length pre + S (length post))))
    with true.
  - rewrite Nat2Z.id, nth_error_app2, Nat.sub_diag by lia. reflexivity.
  - symmetry. apply andb_true_iff. split; [apply Z.leb_le | apply Z.ltb_lt]; lia.
Qed.

(** ** The gallery a rebuild produces *)

Lemma add_rendered_twice s a b e1 e2 :
  add_rendered (add_rendered s a e1) b e2 = add_rendered s (a ++ b) (e2 ++ e1).
Proof.
  unfold add_rendered, labels. simpl.
  rewrite map_app, !app_assoc. reflexivity.
Qed.

Lemma pixmap_events_S zoom k n :
  pixmap_events zoom k (S n) =
  pixmap_events zoom (S k) n ++ [EvGetPixmap (Z.of_nat k) zoom].
Proof. unfold pixmap_events. reflexivity. Qed.

(** The loop over the pages [ps] that follow the pages [pre] of the
    document: it adds the bitmaps of [render_prefix] and stops at the first
    page that fails. *)
Lemma for_each_render_one (d : Document) (ps : list Page) :
  is_closed d = false ->
  forall (pre : list Page) (s : PDFViewer),
    pdf_document s = Some d ->
    pages d = pre ++ ps ->
    let r := render_prefix (invert_colors s) (zoom_level s) ps in
    for_each (map Z.of_nat (seq (length pre) (length ps))) render_one s =
    (result_of_error (snd r),
     add_rendered s (fst r) (pixmap_events (zoom_level s) (length pre) (calls r))).
Proof.
  intros Hc. induction ps as [|p ps IH]; intros pre s Hd Hp.
  - simpl. unfold ret, add_rendered, labels, pixmap_events, calls. simpl.
    rewrite !app_nil_r. destruct s; reflexivity.
  - cbn [length seq map for_each].
    assert (Hget : doc_getitem d (Z.of_nat (length pre)) = Ok p)
      by (eapply doc_getitem_app; eauto).
    cbn [render_prefix]. unfold render_image.
    unfold bind at 1. unfold render_one, the_document, bind at 1.
    rewrite Hd. unfold bind, lift, gets, modify. rewrite Hget. simpl.
    destruct (get_pixmap p (zoom_level s)) as [pix|e] eqn:Hpix.
    + simpl.
      set (img := fromImage (if invert_colors s
                             then invertPixels (image_of_pixmap pix)
                             else image_of_pixmap pix)).
      set (s1 := add_rendered s [img]
                   [EvGetPixmap (Z.of_nat (length pre)) (zoom_level s)]).
      specialize (IH (pre ++ [p]) s1).
      rewrite length_app, Nat.add_1_r in IH.
      change (for_each (map Z.of_nat (seq (S (length pre)) (length ps))) render_one s1 =
              (result_of_error
                 (snd (let (imgs, err) :=
                         render_prefix (invert_colors s) (zoom_level s) ps
                       in (img :: imgs, err))),
               add_rendered s
                 (fst (let (imgs, err) :=
                         render_prefix (invert_colors s) (zoom_level s) ps
                       in (img :: imgs, err)))
                 (pixmap_events (zoom_level s) (length pre)
                    (calls (let (imgs, err) :=
                              render_prefix (invert_colors s) (zoom_level s) ps
                            in (img :: imgs, err)))))).
      rewrite IH; [| exact Hd | rewrite Hp, <- app_assoc; reflexivity].
      change (invert_colors s1) with (invert_colors s).
      change (zoom_level s1) with (zoom_level s).
      destruct (render_prefix (invert_colors s) (zoom_level s) ps) as [imgs err].
      unfold s1. rewrite add_rendered_twice.
      f_equal. f_equal.
      unfold calls. simpl. destruct err; rewrite pixmap_events_S; reflexivity.
    + simpl. unfold add_rendered, labels, pixmap_events, calls. simpl.
      rewrite !app_nil_r. reflexivity.
Qed.

Lemma render_all_pages_usable (d : Document) (s : PDFViewer) :
  pdf_document s = Some d -> usable d ->
  render_all_pages s = (Ok tt, rebuilt d s).
Proof.
  intros Hd Hu. pose proof (truthy_usable d Hu) as Ht. destruct Hu as [Hc Hp].
  unfold render_all_pages. unfold bind at 1, gets. unfold bind at 1, lift.
  rewrite Hd, Ht. cbn [negb].
  unfold bind at 1, modify. unfold bind at 1.
  rewrite take_all_nil.
  set (s0 := set_page_images [] (set_pages_layout [] s)).
  assert (Hd0 : pdf_document s0 = Some d) by exact Hd.
  unfold try_except, bind at 1, len_document, bind at 1, the_document.
  rewrite Hd0. unfold lift, doc_len. rewrite Hc.
  unfold range. rewrite Nat2Z.id.
  pose proof (for_each_render_one d (pages d) Hc [] s0 Hd0 eq_refl) as Hloop.
  cbn [length app] in Hloop. cbv zeta in Hloop.
  unfold bind at 1. rewrite Hloop.
  change (invert_colors s0) with (invert_colors s).
  change (zoom_level s0) with (zoom_level s).
  unfold rebuilt.
  destruct (render_prefix (invert_colors s) (zoom_level s) (pages d)) as [imgs err].
  destruct err as [e|]; simpl; unfold modify, add_rendered; simpl;
    rewrite ?app_nil_r; reflexivity.
Qed.

Lemma render_all_pages_none (s : PDFViewer) :
  pdf_document s = None -> render_all_pages s = (Ok tt, s).
Proof.
  intros Hd. unfold render_all_pages, bind, gets, lift. rewrite Hd. reflexivity.
Qed.

Lemma render_all_pages_empty (d : Document) (s : PDFViewer) :
  pdf_document s = Some d -> is_closed d = false -> pages d = [] ->
  render_all_pages s = (Ok tt, s).
Proof.
  intros Hd Hc Hp. unfold render_all_pages, bind, gets, lift.
  rewrite Hd, (truthy_empty d Hc Hp). reflexivity.
Qed.

Lemma render_all_pages_closed (d : Document) (s : PDFViewer) :
  pdf_document s = Some d -> is_closed d = true ->
  render_all_pages s = (Err document_closed, s).
Proof.
  intros Hd Hc. unfold render_all_pages, bind, gets, lift.
  rewrite Hd. unfold truthy, doc_len. rewrite Hc. reflexivity.
Qed.

(** ** Pixel inversion *)

Lemma lxor_255_byte (c : Z) : is_byte c -> Z.lxor c 255 = 255 - c.
Proof.
  intros [Hlo Hhi].
  assert (Hall : forallb (fun n => Z.lxor (Z.of_nat n) 255 =? 255 - Z.of_nat n)
                   (seq 0 256) = true) by (vm_compute; reflexivity).
  rewrite forallb_forall in Hall.
  specialize (Hall (Z.to_nat c)).
  rewrite Z2Nat.id in Hall by assumption.
  apply Z.eqb_eq, Hall, in_seq. lia.
Qed.

(** ** Scrolling *)

Lemma scroll_to_page_eq (p : Z) (s : PDFViewer) :
  scroll_to_page p s = (Ok tt, if in_gallery p s then scrolled p s else s).
Proof.
  unfold scroll_to_page, in_gallery, bind at 1, gets.
  destruct ((p <? 0) || (p >=? Z.of_nat (length (page_images s)))); simpl.
  - reflexivity.
  - unfold bind, gets, modify, spin_blockSignals, spin_store, scrolled. simpl.
    destruct (Z.eqb_spec
                (Z.max (spin_minimum (page_spinbox s))
                   (Z.min (p + 1) (spin_maximum (page_spinbox s))))
                (spin_value (page_spinbox s))) as [E|E]; simpl.
    + rewrite E. reflexivity.
    + reflexivity.
Qed.

Lemma scroll_to_page_frame (p : Z) (s : PDFViewer) :
  gallery_view (exec (scroll_to_page p) s) = gallery_view s /\
  current_page (exec (scroll_to_page p) s) = current_page s.
Proof.
  unfold exec. rewrite scroll_to_page_eq. simpl.
  destruct (in_gallery p s); split; reflexivity.
Qed.

Lemma next_page_eq (s : PDFViewer) (d : Document) :
  pdf_document s = Some d -> usable d ->
  next_page s =
  (Ok tt,
   if current_page s <? page_count d - 1
   then exec (scroll_to_page (current_page s + 1))
             (set_current_page (current_page s + 1) s)
   else s).
Proof.
  intros Hd Hu. pose proof (truthy_usable d Hu) as Ht. destruct Hu as [Hc Hp].
  unfold next_page, bind at 1, gets. unfold bind at 1, lift. rewrite Hd, Ht.
  unfold bind at 1, gets. unfold bind at 1, len_document, bind at 1, the_document.
  rewrite Hd. unfold lift, doc_len. rewrite Hc. fold (page_count d).
  destruct (current_page s <? page_count d - 1); [| reflexivity].
  unfold bind, modify, gets, exec. simpl.
  rewrite scroll_to_page_eq. reflexivity.
Qed.

Lemma prev_page_eq (s : PDFViewer) (d : Document) :
  pdf_document s = Some d -> usable d ->
  prev_page s =
  (Ok tt,
   if current_page s >? 0
   then exec (scroll_to_page (current_page s - 1))
             (set_current_page (current_page s - 1) s)
   else s).
Proof.
  intros Hd Hu. pose proof (truthy_usable d Hu) as Ht.
  unfold prev_page, bind at 1, gets. unfold bind at 1, lift. rewrite Hd, Ht.
  unfold bind at 1, gets. cbn [andb].
  destruct (current_page s >? 0); [| reflexivity].
  unfold bind, modify, gets, exec. simpl.
  rewrite scroll_to_page_eq. reflexivity.
Qed.

Lemma jump_to_page_eq (n : Z) (s : PDFViewer) (d : Document) :
  pdf_document s = Some d -> usable d ->
  jump_to_page n s =
  (Ok tt, exec (scroll_to_page (n - 1)) (set_current_page (n - 1) s)).
Proof.
  intros Hd Hu. pose proof (truthy_usable d Hu) as Ht.
  unfold jump_to_page, bind at 1, gets. unfold bind at 1, lift. rewrite Hd, Ht.
  unfold bind, modify, gets, exec. simpl.
  rewrite scroll_to_page_eq. reflexivity.
Qed.

(** ** Page turns *)

(** C8.  With a document open and [current_page] a page of it, [next_page]
    leaves [current_page] alone at the last page and adds one otherwise, and
    [prev_page] leaves it alone at page 0 and subtracts one otherwise. *)
Theorem next_prev_bounds (s : PDFViewer) (d : Document) :
  pdf_document s = Some d -> is_closed d = false ->
  0 <= current_page s < page_count d ->
  current_page (exec next_page s) =
    (if current_page s =? page_count d - 1 then current_page s
     else current_page s + 1) /\
  current_page (exec prev_page s) =
    (if current_page s =? 0 then current_page s else current_page s - 1).
Proof.
  intros Hd Hc Hcp.
  assert (Hu : usable d).
  { split; [exact Hc |]. intros Hp. unfold page_count in Hcp.
    rewrite Hp in Hcp. simpl in Hcp. lia. }
  unfold exec. rewrite (next_page_eq s d Hd Hu), (prev_page_eq s d Hd Hu).
  cbn [snd]. split.
  - destruct (Z.ltb_spec (current_page s) (page_count d - 1)) as [Hlt|Hge];
      destruct (Z.eqb_spec (current_page s) (page_count d - 1)) as [He|Hne];
      try lia; try reflexivity.
    rewrite (proj2 (scroll_to_page_frame _ _)). reflexivity.
  - destruct (Z.gtb_spec (current_page s) 0) as [Hgt|Hle];
      destruct (Z.eqb_spec (current_page s) 0) as [He|Hne];
      try lia; try reflexivity.
    rewrite (proj2 (scroll_to_page_frame _ _)). reflexivity.
Qed.

Lemma next_prev_bounds_witness :
  current_page (exec next_page Examples.viewing_a) = 1 /\
  current_page (exec prev_page Examples.viewing_a) = 0.
Proof.
  apply (next_prev_bounds Examples.viewing_a (mkDocument Examples.three_pages false));
    [reflexivity | reflexivity | vm_compute; split; congruence].
Defined.

(** ** Jumps and the range of [current_page] *)

Lemma key_home_eq (s : PDFViewer) (d : Document) :
  pdf_document s = Some d -> usable d ->
  keyPressEvent Key_Home s = (Ok tt, rebuilt d (set_current_page 0 s)).
Proof.
  intros Hd Hu. pose proof (truthy_usable d Hu) as Ht.
  unfold keyPressEvent, bind at 1, gets. unfold bind at 1, lift. rewrite Hd, Ht.
  cbn [negb]. unfold bind, modify, render_page.
  rewrite (render_all_pages_usable d) by assumption. reflexivity.
Qed.

Lemma key_end_eq (s : PDFViewer) (d : Document) :
  pdf_document s = Some d -> usable d ->
  keyPressEvent Key_End s =
  (Ok tt, rebuilt d (set_current_page (page_count d - 1) s)).
Proof.
  intros Hd Hu. pose proof (truthy_usable d Hu) as Ht.
  unfold keyPressEvent, bind at 1, gets. unfold bind at 1, lift. rewrite Hd, Ht.
  cbn [negb]. unfold bind at 1, len_document, bind at 1, the_document.
  rewrite Hd. unfold lift, doc_len. rewrite (proj1 Hu). fold (page_count d).
  unfold bind, modify, render_page.
  rewrite (render_all_pages_usable d) by assumption. reflexivity.
Qed.



(** ** Inversion *)

Lemma render_prefix_invert (zoom : Q) (ps : list Page) :
  bytes_ok ps ->
  Forall2 inverse_of (fst (render_prefix false zoom ps))
                     (fst (render_prefix true zoom ps)) /\
  snd (render_prefix false zoom ps) = snd (render_prefix true zoom ps).
Proof.
  induction ps as [|p ps IH]; intros Hb.
  - simpl. split; [constructor | reflexivity].
  - assert (Hb' : bytes_ok ps).
    { intros q z pix Hin. apply Hb. right. exact Hin. }
    specialize (IH Hb'). simpl. unfold render_image.
    destruct (get_pixmap p zoom) as [pix|e] eqn:Hpix.
    + destruct (render_prefix false zoom ps) as [imgsF errF].
      destruct (render_prefix true zoom ps) as [imgsT errT].
      simpl in *. destruct IH as [IH1 IH2]. split; [| exact IH2].
      constructor; [| exact IH1].
      split; [reflexivity |].
      apply (Hb p zoom pix); [left; reflexivity | exact Hpix].
    + simpl. split; [constructor | reflexivity].
Qed.

Lemma Forall2_nth_error_both {A B : Type} (R : A -> B -> Prop)
      (l : list A) (l' : list B) :
  Forall2 R l l' ->
  forall i a b, nth_error l i = Some a -> nth_error l' i = Some b -> R a b.
Proof.
  induction 1 as [|x y l l' Hxy Hrest IH]; intros i a b Ha Hb.
  - destruct i; discriminate.
  - destruct i as [|i]; simpl in *.
    + congruence.
    + eapply IH; eauto.
Qed.

Lemma inverse_of_complement (a b : QImage) :
  inverse_of a b ->
  img_width b = img_width a /\
  img_height b = img_height a /\
  img_bytesPerLine b = img_bytesPerLine a /\
  length (img_data b) = length (img_data a) /\
  forall i c, nth_error (img_data a) i = Some c ->
              nth_error (img_data b) i = Some (255 - c).
Proof.
  intros [Hb Hbytes]. subst b. simpl.
  repeat split; try reflexivity.
  - apply length_map.
  - intros i c Hc. rewrite nth_error_map, Hc. simpl.
    rewrite lxor_255_byte; [reflexivity |].
    rewrite Forall_forall in Hbytes. apply Hbytes.
    eapply nth_error_In; eauto.
Qed.

Lemma render_prefix_nth_error (invert : bool) (zoom : Q) (ps : list Page)
      (n : nat) (p : Page) (pix : Pixmap) :
  nth_error ps n = Some p ->
  Forall (fun q => exists pixq, get_pixmap q zoom = Ok pixq) (firstn n ps) ->
  get_pixmap p zoom = Ok pix ->
  nth_error (fst (render_prefix invert zoom ps)) n =
  Some (if invert then invertPixels (image_of_pixmap pix)
        else image_of_pixmap pix).
Proof.
  revert n. induction ps as [|q ps IH]; intros [|n] Hn Hbefore Hp;
    try discriminate.
  - simpl in Hn. injection Hn as ->.
    cbn [render_prefix]. unfold render_image. rewrite Hp.
    destruct (render_prefix invert zoom ps). reflexivity.
  - simpl in Hn. cbn [firstn] in Hbefore.
    inversion Hbefore as [|q' l' [pixq Hq] Hrest]; subst.
    cbn [render_prefix]. unfold render_image. rewrite Hq.
    specialize (IH n Hn Hrest Hp).
    destruct (render_prefix invert zoom ps) as [imgs err]. exact IH.
Qed.

(** C1.  With a document open, at any zoom level (those of 0.2..5.0
    among them), the gallery rendered with [invert_colors] off and the one
    rendered with it on have a bitmap for the same pages, and the two
    bitmaps of a page have the same dimensions and complementary channel
    values: 255 minus the value of the other.  Every page the rebuild gets
    to (the rasteriser failing on no page before it) has its bitmap in
    both galleries: with the dimensions of its pixmap, with the samples of
    the pixmap when rendered without inversion and with 255 minus each
    sample when rendered with it. *)
Theorem render_invert_complement (s : PDFViewer) (d : Document) :
  pdf_document s = Some d -> usable d -> bytes_ok (pages d) ->
  let normal := page_images (exec render_all_pages (set_invert_colors false s)) in
  let inverted := page_images (exec render_all_pages (set_invert_colors true s)) in
  length inverted = length normal /\
  (forall page_num a b,
     nth_error normal page_num = Some a ->
     nth_error inverted page_num = Some b ->
     img_width b = img_width a /\
     img_height b = img_height a /\
     img_bytesPerLine b = img_bytesPerLine a /\
     length (img_data b) = length (img_data a) /\
     forall i c, nth_error (img_data a) i = Some c ->
                 nth_error (img_data b) i = Some (255 - c)) /\
  (forall page_num p pix,
     nth_error (pages d) page_num = Some p ->
     Forall (fun q => exists pixq, get_pixmap q (zoom_level s) = Ok pixq)
            (firstn page_num (pages d)) ->
     get_pixmap p (zoom_level s) = Ok pix ->
     exists a b,
       nth_error normal page_num = Some a /\
       nth_error inverted page_num = Some b /\
       (img_width a, img_height a, img_bytesPerLine a) =
         (width pix, height pix, stride pix) /\
       (img_width b, img_height b, img_bytesPerLine b) =
         (width pix, height pix, stride pix) /\
       img_data a = samples pix /\
       img_data b = map (fun c => 255 - c) (samples pix)).
Proof.
  intros Hd Hu Hb. unfold exec.
  rewrite (render_all_pages_usable d (set_invert_colors false s)) by assumption.
  rewrite (render_all_pages_usable d (set_invert_colors true s)) by assumption.
  cbn [snd rebuilt page_images set_invert_colors invert_colors zoom_level].
  destruct (render_prefix_invert (zoom_level s) (pages d) Hb) as [H2 _].
  split; [| split].
  - symmetry. eapply Forall2_length; eauto.
  - intros i a b Ha Hb'. apply inverse_of_complement.
    eapply Forall2_nth_error_both; eauto.
  - intros n p pix Hn Hbefore Hp.
    exists (image_of_pixmap pix), (invertPixels (image_of_pixmap pix)).
    split; [exact (render_prefix_nth_error false _ _ n p pix Hn Hbefore Hp) |].
    split; [exact (render_prefix_nth_error true _ _ n p pix Hn Hbefore Hp) |].
    split; [reflexivity |]. split; [reflexivity |]. split; [reflexivity |].
    cbn [invertPixels image_of_pixmap img_data].
    apply map_ext_in. intros c Hc. apply lxor_255_byte.
    assert (Hbytes : Forall is_byte (samples pix)).
    { apply (Hb p (zoom_level s) pix); [| exact Hp].
      eapply nth_error_In; eauto. }
    rewrite Forall_forall in Hbytes. apply Hbytes, Hc.
Qed.

Lemma three_pages_bytes : bytes_ok Examples.three_pages.
Proof.
  intros p zoom pix Hin Hpix.
  repeat (destruct Hin as [Hp|Hin];
          [subst p; simpl in Hpix; injection Hpix as <-; simpl;
           repeat constructor; unfold is_byte; lia |]).
  destruct Hin.
Qed.

Lemma render_invert_complement_witness :
  let normal :=
    page_images (exec render_all_pages (set_invert_colors false Examples.viewing_a)) in
  let inverted :=
    page_images (exec render_all_pages (set_invert_colors true Examples.viewing_a)) in
  length inverted = length normal /\
  exists a b,
    nth_error normal 1 = Some a /\
    nth_error inverted 1 = Some b /\
    (img_width a, img_height a, img_bytesPerLine a) = (1, 200, 3) /\
    (img_width b, img_height b, img_bytesPerLine b) = (1, 200, 3) /\
    img_data a = [1; 2; 3] /\
    img_data b = [254; 253; 252].
Proof.
  destruct (render_invert_complement Examples.viewing_a
              (mkDocument Examples.three_pages false))
    as (Hlen & _ & Hpage).
  - reflexivity.
  - split; [reflexivity | discriminate].
  - exact three_pages_bytes.
  - split; [exact Hlen |].
    apply (Hpage 1%nat (Examples.plain_page 200 1 2 3) (mkPixmap [1; 2; 3] 1 200 3)).
    + reflexivity.
    + repeat constructor. eexists. reflexivity.
    + reflexivity.
Defined.

(** ** What a rebuild leaves alone *)

Lemma render_all_pages_cases (s : PDFViewer) :
  (exec render_all_pages s = s /\
   forall d, pdf_document s = Some d -> ~ usable d) \/
  exists d, pdf_document s = Some d /\ usable d /\
            exec render_all_pages s = rebuilt d s.
Proof.
  unfold exec. destruct (pdf_document s) as [d|] eqn:Hd.
  - destruct (is_closed d) eqn:Hc.
    + left. rewrite (render_all_pages_closed d s Hd Hc). split; [reflexivity |].
      intros d' Hd' [Hc' _]. injection Hd' as <-. congruence.
    + destruct (pages d) as [|p ps] eqn:Hp.
      * left. rewrite (render_all_pages_empty d s Hd Hc Hp).
        split; [reflexivity |].
        intros d' Hd' [_ Hp']. injection Hd' as <-. congruence.
      * right. exists d.
        assert (Hu : usable d) by (split; [exact Hc | rewrite Hp; discriminate]).
        rewrite (render_all_pages_usable d s Hd Hu). auto.
  - left. rewrite (render_all_pages_none s Hd). split; [reflexivity |].
    discriminate.
Qed.

Lemma render_all_pages_settings (s : PDFViewer) :
  pdf_document (exec render_all_pages s) = pdf_document s /\
  current_page (exec render_all_pages s) = current_page s /\
  zoom_level (exec render_all_pages s) = zoom_level s /\
  invert_colors (exec render_all_pages s) = invert_colors s /\
  scroll_value (exec render_all_pages s) = scroll_value s.
Proof.
  destruct (render_all_pages_cases s) as [[H _] | (d & _ & _ & H)]; rewrite H;
    repeat split; reflexivity.
Qed.

(** ** Zoom *)

Lemma zoom_in_level (s : PDFViewer) :
  zoom_level (exec zoom_in s) = Qmin (zoom_level s + 0.2) 5.0.
Proof.
  unfold exec, zoom_in, bind, modify, render_page. simpl.
  match goal with
  | |- context [render_all_pages ?s0] =>
      pose proof (render_all_pages_settings s0) as (_ & _ & Hz & _);
      unfold exec in Hz;
      destruct (render_all_pages s0) as [[[]|e] s1]; simpl in *; exact Hz
  end.
Qed.

Lemma zoom_out_level (s : PDFViewer) :
  zoom_level (exec zoom_out s) = Qmax (zoom_level s - 0.2) 0.2.
Proof.
  unfold exec, zoom_out, bind, modify, render_page. simpl.
  match goal with
  | |- context [render_all_pages ?s0] =>
      pose proof (render_all_pages_settings s0) as (_ & _ & Hz & _);
      unfold exec in Hz;
      destruct (render_all_pages s0) as [[[]|e] s1]; simpl in *; exact Hz
  end.
Qed.

(** C6, as the code has it.  From a zoom level of 0.2..4.8, [zoom_in] and
    then [zoom_out] give the zoom level back (in exact arithmetic; the
    floats of the program agree up to rounding). *)
Theorem zoom_in_out_round_trip (s : PDFViewer) :
  (0.2 <= zoom_level s)%Q -> (zoom_level s <= 4.8)%Q ->
  (zoom_level (exec zoom_out (exec zoom_in s)) == zoom_level s)%Q.
Proof.
  intros Hlo Hhi. rewrite zoom_out_level, zoom_in_level.
  destruct (Q.min_spec (zoom_level s + 0.2) 5.0) as [[Hc1 Hmin]|[Hc1 Hmin]];
    destruct (Q.max_spec (Qmin (zoom_level s + 0.2) 5.0 - 0.2) 0.2)
      as [[Hc2 Hmax]|[Hc2 Hmax]]; lra.
Qed.

Lemma zoom_in_out_round_trip_witness :
  (zoom_level (exec zoom_out (exec zoom_in Examples.viewing_a))
   == zoom_level Examples.viewing_a)%Q.
Proof.
  apply (zoom_in_out_round_trip Examples.viewing_a); vm_compute; discriminate.
Defined.

(** C6 as stated fails at the upper end of the range: at 5.0 [zoom_in] is
    clamped and [zoom_out] then goes down to 4.8. *)
Lemma zoom_in_out_at_maximum :
  let s := set_zoom_level 5.0 Examples.viewing_a in
  (0.2 <= zoom_level s)%Q /\ (zoom_level s <= 5.0)%Q /\
  (zoom_level (exec zoom_out (exec zoom_in s)) == 4.8)%Q /\
  ~ (zoom_level (exec zoom_out (exec zoom_in s)) == zoom_level s)%Q.
Proof.
  vm_compute. repeat split; discriminate.
Qed.

(** ** A page that fails to render *)

Lemma render_prefix_failure (invert : bool) (zoom : Q) (pre post : list Page)
      (p : Page) (e : Exn) (imgs : list QPixmap) :
  Forall2 (fun q img => render_image invert zoom q = Ok img) pre imgs ->
  get_pixmap p zoom = Err e ->
  render_prefix invert zoom (pre ++ p :: post) = (imgs, Some e).
Proof.
  intros Hpre Hp. induction Hpre as [|q img pre imgs Hq Hrest IH]; simpl.
  - unfold render_image. rewrite Hp. reflexivity.
  - rewrite Hq, IH. reflexivity.
Qed.

(** C4, as the code has it.  When the rasteriser fails on a page during a
    rebuild, the rebuild stops there: the gallery and the layout hold the
    bitmaps of the pages before it and nothing else, neither a placeholder
    nor the stretch, [get_pixmap] is called on no later page, and a warning
    is shown. *)
Theorem render_failure_stops_rebuild
        (s : PDFViewer) (d : Document) (pre post : list Page) (p : Page)
        (e : Exn) (imgs : list QPixmap) :
  pdf_document s = Some d -> is_closed d = false ->
  pages d = pre ++ p :: post ->
  Forall2 (fun q img => render_image (invert_colors s) (zoom_level s) q = Ok img)
          pre imgs ->
  get_pixmap p (zoom_level s) = Err e ->
  outcome render_all_pages s = Ok tt /\
  page_images (exec render_all_pages s) = imgs /\
  pages_layout (exec render_all_pages s) = labels imgs /\
  events (exec render_all_pages s) =
    EvWarning (str e)
    :: pixmap_events (zoom_level s) 0 (S (length pre)) ++ events s.
Proof.
  intros Hd Hc Hp Hpre He.
  assert (Hu : usable d).
  { split; [exact Hc |]. rewrite Hp. destruct pre; discriminate. }
  unfold outcome, exec. rewrite (render_all_pages_usable d s Hd Hu).
  unfold rebuilt. rewrite Hp.
  rewrite (render_prefix_failure _ _ pre post p e imgs Hpre He).
  unfold calls. cbn [fst snd page_images pages_layout events].
  rewrite (Forall2_length Hpre), app_nil_r.
  repeat split; reflexivity.
Qed.

Lemma render_failure_stops_rebuild_witness :
  outcome render_all_pages Examples.viewing_b = Ok tt /\
  length (page_images (exec render_all_pages Examples.viewing_b)) = 1%nat.
Proof.
  destruct (render_failure_stops_rebuild Examples.viewing_b
              (mkDocument Examples.second_broken false)
              [Examples.plain_page 100 0 10 255] [Examples.plain_page 300 7 8 9]
              Examples.broken_page (Exception "cannot render page")
              [mkQImage [255; 245; 0] 1 100 3 Format_RGB888])
    as (Hok & Himgs & _).
  - reflexivity.
  - reflexivity.
  - reflexivity.
  - repeat constructor.
  - reflexivity.
  - split; [exact Hok | rewrite Himgs; reflexivity].
Defined.

(** C4 as stated fails: with the second of three pages broken, the gallery
    holds one bitmap, the layout one label and no placeholder, and the
    third page is never rasterised. *)
Lemma broken_page_aborts_gallery :
  let s' := exec render_all_pages Examples.viewing_b in
  pdf_document Examples.viewing_b = Some (mkDocument Examples.second_broken false) /\
  length (page_images s') = 1%nat /\
  pages_layout s' = labels (page_images s') /\
  ~ In (EvGetPixmap 2 (zoom_level Examples.viewing_b)) (events s').
Proof.
  vm_compute. repeat split.
  intros H. repeat (destruct H as [H|H]; [discriminate H |]). exact H.
Qed.

(** ** The spin box *)

Lemma not_closed_truthy (s : PDFViewer) :
  not_closed s -> exists b, truthy (pdf_document s) = Ok b.
Proof.
  unfold not_closed, truthy, doc_len. destruct (pdf_document s) as [d|].
  - intros ->. eauto.
  - eauto.
Qed.

Lemma jump_to_page_keeps (n : Z) (s : PDFViewer) :
  not_closed s -> keeps_gallery (jump_to_page n) s.
Proof.
  intros Hn. destruct (not_closed_truthy s Hn) as [b Hb].
  unfold keeps_gallery, jump_to_page, bind at 1, gets. unfold bind at 1, lift.
  rewrite Hb. destruct b.
  - unfold bind, modify, gets. rewrite scroll_to_page_eq.
    eexists. split; [reflexivity |].
    destruct (in_gallery _ _); reflexivity.
  - exists s. split; reflexivity.
Qed.

Lemma spin_store_keeps (v : Z) (s : PDFViewer) :
  exists signal s', spin_store v s = (Ok signal, s') /\
                    gallery_view s' = gallery_view s.
Proof.
  unfold spin_store.
  destruct (Z.max _ _ =? spin_value (page_spinbox s)); eauto.
Qed.

Lemma keeps_gallery_not_closed (s s' : PDFViewer) :
  gallery_view s' = gallery_view s -> not_closed s -> not_closed s'.
Proof.
  unfold gallery_view, not_closed. intros H. injection H as -> _ _ _ _. auto.
Qed.

Lemma spin_setValue_keeps (v : Z) (s : PDFViewer) :
  not_closed s -> keeps_gallery (spin_setValue v) s.
Proof.
  intros Hn. destruct (spin_store_keeps v s) as (signal & s1 & Hst & Hg).
  unfold keeps_gallery, spin_setValue. rewrite (bind_ok _ _ _ _ _ Hst).
  destruct signal as [v'|].
  - destruct (jump_to_page_keeps v' s1) as (s2 & Hj & Hg2).
    + eapply keeps_gallery_not_closed; eauto.
    + exists s2. split; [exact Hj | congruence].
  - exists s1. split; [reflexivity | exact Hg].
Qed.

Lemma spin_setMaximum_keeps (m : Z) (s : PDFViewer) :
  not_closed s -> keeps_gallery (spin_setMaximum m) s.
Proof.
  intros Hn. unfold keeps_gallery, spin_setMaximum, bind at 1, modify.
  unfold bind at 1, gets.
  match goal with
  | |- context [spin_setValue ?v ?s0] =>
      destruct (spin_setValue_keeps v s0) as (s1 & H1 & Hg); [exact Hn |];
      exists s1; split; [exact H1 | exact Hg]
  end.
Qed.

(** ** Opening a file *)

Lemma render_all_pages_not_closed (s : PDFViewer) :
  not_closed s -> render_all_pages s = (Ok tt, exec render_all_pages s).
Proof.
  unfold not_closed, exec. intros Hn.
  destruct (pdf_document s) as [d|] eqn:Hd.
  - destruct (pages d) as [|p ps] eqn:Hp.
    + rewrite (render_all_pages_empty d s Hd Hn Hp). reflexivity.
    + assert (Hu : usable d) by (split; [exact Hn | rewrite Hp; discriminate]).
      rewrite (render_all_pages_usable d s Hd Hu). reflexivity.
  - rewrite (render_all_pages_none s Hd). reflexivity.
Qed.

Lemma close_previous_eq (s : PDFViewer) :
  not_closed s ->
  (doc <- gets pdf_document ;;
   has_doc <- lift (truthy doc) ;;
   if has_doc then close_document else ret tt) s = (Ok tt, after_close s).
Proof.
  unfold not_closed, after_close. intros Hn.
  unfold bind at 1, gets. unfold bind at 1, lift.
  destruct (pdf_document s) as [d|] eqn:Hd.
  - unfold truthy, doc_len. rewrite Hn. fold (page_count d).
    destruct (negb (page_count d =? 0)).
    + unfold close_document, bind at 1, the_document. rewrite Hd.
      unfold bind, lift, doc_close, modify. rewrite Hn. reflexivity.
    + reflexivity.
  - reflexivity.
Qed.

Section OpenFileFacts.

Variable fitz_open : string -> result (list Page).

Lemma open_file_cancelled (s : PDFViewer) :
  open_file fitz_open "" s = (Ok tt, s).
Proof. reflexivity. Qed.

Lemma open_file_failure (path : string) (e : Exn) (s : PDFViewer) :
  path <> ""%string -> fitz_open path = Err e -> not_closed s ->
  open_file fitz_open path s =
  (Ok tt, log_event (EvCritical (str e)) (after_close s)).
Proof.
  intros Hpath Hopen Hn. unfold open_file.
  destruct (String.eqb_spec path "") as [E|_]; [contradiction |].
  unfold try_except.
  pose proof (close_previous_eq s Hn) as Hclose.
  unfold bind at 1 2 in Hclose. unfold bind at 1 2 3.
  destruct (gets pdf_document s) as [[doc|e0] s0]; [| discriminate].
  destruct (lift (truthy doc) s0) as [[has_doc|e1] s1]; [| discriminate].
  destruct ((if has_doc then close_document else ret tt) s1) as [[[]|e2] s2];
    [| discriminate].
  injection Hclose as ->.
  unfold bind, lift. rewrite Hopen. reflexivity.
Qed.

Lemma open_file_success (path : string) (ps : list Page) (s : PDFViewer) :
  path <> ""%string -> fitz_open path = Ok ps -> not_closed s ->
  exists s2,
    open_file fitz_open path s =
      (Ok tt, set_status_label (Some path) (exec render_all_pages s2)) /\
    gallery_view s2 =
      (Some (mkDocument ps false), zoom_level s, invert_colors s,
       page_images s, pages_layout s).
Proof.
  intros Hpath Hopen Hn. unfold open_file.
  destruct (String.eqb_spec path "") as [E|_]; [contradiction |].
  unfold try_except.
  pose proof (close_previous_eq s Hn) as Hclose.
  unfold bind at 1 2 in Hclose. unfold bind at 1 2 3.
  destruct (gets pdf_document s) as [[doc|e0] s0]; [| discriminate].
  destruct (lift (truthy doc) s0) as [[has_doc|e1] s1]; [| discriminate].
  destruct ((if has_doc then close_document else ret tt) s1) as [[[]|e2] s2];
    [| discriminate].
  injection Hclose as ->.
  unfold bind at 1, lift. rewrite Hopen.
  unfold bind at 1, modify. unfold bind at 1. unfold bind at 1.
  set (s3 := set_current_page 0
               (log_event (EvOpen path)
                  (set_pdf_document (Some (mkDocument ps false)) (after_close s)))).
  assert (Hg3 : gallery_view s3 =
                (Some (mkDocument ps false), zoom_level s, invert_colors s,
                 page_images s, pages_layout s)).
  { unfold s3, gallery_view, after_close. simpl.
    destruct (pdf_document s) as [d|]; [destruct (negb _) |]; reflexivity. }
  assert (Hn3 : not_closed s3) by reflexivity.
  unfold bind at 1, len_document, bind at 1, the_document.
  change (pdf_document s3) with (Some (mkDocument ps false)).
  unfold lift, doc_len. cbn [is_closed pages].
  destruct (spin_setMaximum_keeps (Z.of_nat (length ps)) s3 Hn3)
    as (s4 & H4 & Hg4).
  rewrite (bind_ok _ _ _ _ _ H4).
  unfold bind at 1, modify.
  set (s5 := set_page_count_label (Z.of_nat (length ps)) s4).
  assert (Hg5 : gallery_view s5 = gallery_view s3) by exact Hg4.
  assert (Hn5 : not_closed s5)
    by (eapply keeps_gallery_not_closed; eauto).
  destruct (spin_setValue_keeps 1 s5 Hn5) as (s6 & H6 & Hg6).
  rewrite (bind_ok _ _ _ _ _ H6).
  assert (Hn6 : not_closed s6)
    by (eapply keeps_gallery_not_closed; eauto).
  rewrite (bind_ok _ _ _ _ _ (render_all_pages_not_closed s6 Hn6)).
  exists s6. split; [reflexivity | congruence].
Qed.

End OpenFileFacts.

(** A method that starts by asking whether there is a document raises on
    a closed one: [len] of a closed document raises. *)
Lemma truthy_closed (d : Document) :
  is_closed d = true -> truthy (Some d) = Err document_closed.
Proof. intros Hc. unfold truthy, doc_len. rewrite Hc. reflexivity. Qed.

Lemma prev_page_closed (s : PDFViewer) (d : Document) :
  pdf_document s = Some d -> is_closed d = true ->
  prev_page s = (Err document_closed, s).
Proof.
  intros Hd Hc. unfold prev_page, bind, gets, lift.
  rewrite Hd, (truthy_closed d Hc). reflexivity.
Qed.

Lemma next_page_closed (s : PDFViewer) (d : Document) :
  pdf_document s = Some d -> is_closed d = true ->
  next_page s = (Err document_closed, s).
Proof.
  intros Hd Hc. unfold next_page, bind, gets, lift.
  rewrite Hd, (truthy_closed d Hc). reflexivity.
Qed.

Lemma jump_to_page_closed (n : Z) (s : PDFViewer) (d : Document) :
  pdf_document s = Some d -> is_closed d = true ->
  jump_to_page n s = (Err document_closed, s).
Proof.
  intros Hd Hc. unfold jump_to_page, bind, gets, lift.
  rewrite Hd, (truthy_closed d Hc). reflexivity.
Qed.

Lemma keyPressEvent_closed (key : Key) (s : PDFViewer) (d : Document) :
  pdf_document s = Some d -> is_closed d = true ->
  keyPressEvent key s = (Err document_closed, s).
Proof.
  intros Hd Hc. unfold keyPressEvent, bind, gets, lift.
  rewrite Hd, (truthy_closed d Hc). reflexivity.
Qed.

Lemma wheelEvent_closed (control : bool) (delta : Z) (s : PDFViewer)
      (d : Document) :
  pdf_document s = Some d -> is_closed d = true ->
  wheelEvent control delta s = (Err document_closed, s).
Proof.
  intros Hd Hc. unfold wheelEvent, bind, gets, lift.
  rewrite Hd, (truthy_closed d Hc). reflexivity.
Qed.

Lemma closeEvent_closed (s : PDFViewer) (d : Document) :
  pdf_document s = Some d -> is_closed d = true ->
  closeEvent s = (Err document_closed, s).
Proof.
  intros Hd Hc. unfold closeEvent, bind, gets, lift.
  rewrite Hd, (truthy_closed d Hc). reflexivity.
Qed.

(** On a closed document [open_file] raises at its first line and ends in
    the error dialog, whatever the file is. *)
Lemma open_file_closed (fitz_open : string -> result (list Page))
      (path : string) (s : PDFViewer) (d : Document) :
  path <> ""%string -> pdf_document s = Some d -> is_closed d = true ->
  open_file fitz_open path s =
  (Ok tt, log_event (EvCritical "document closed") s).
Proof.
  intros Hpath Hd Hc. unfold open_file.
  destruct (String.eqb_spec path "") as [E|_]; [contradiction |].
  unfold try_except. unfold bind at 1 2, gets, lift.
  rewrite Hd, (truthy_closed d Hc). reflexivity.
Qed.

(** C3 fails in the code.  With a document [d] open, [open_file] on a path
    [fitz.open] raises for returns after the error dialog, but it closed
    [d] before the attempt and keeps the closed handle: the document does
    not stay open and the viewer is not as it was.  From then on every
    key, wheel turn, page turn, jump, zoom step, toggle and the close of
    the window raises "document closed", and no file can be opened any
    more: [open_file] raises at its first line, ends in another error
    dialog and leaves the closed handle in place. *)
Theorem failed_open_leaves_viewer_unusable
        (fitz_open : string -> result (list Page)) (path : string) (e : Exn)
        (s : PDFViewer) (d : Document) :
  path <> ""%string -> fitz_open path = Err e ->
  pdf_document s = Some d -> usable d ->
  let s' := exec (open_file fitz_open path) s in
  outcome (open_file fitz_open path) s = Ok tt /\
  pdf_document s' = Some (mkDocument (pages d) true) /\
  events s' = EvCritical (str e) :: EvClose :: events s /\
  s' <> s /\
  (forall key, outcome (keyPressEvent key) s' = Err document_closed) /\
  (forall control delta,
     outcome (wheelEvent control delta) s' = Err document_closed) /\
  outcome prev_page s' = Err document_closed /\
  outcome next_page s' = Err document_closed /\
  (forall n, outcome (jump_to_page n) s' = Err document_closed) /\
  outcome zoom_in s' = Err document_closed /\
  outcome zoom_out s' = Err document_closed /\
  outcome toggle_color_invert s' = Err document_closed /\
  outcome closeEvent s' = Err document_closed /\
  forall (fitz_open' : string -> result (list Page)) (path' : string),
    path' <> ""%string ->
    let s'' := exec (open_file fitz_open' path') s' in
    pdf_document s'' = pdf_document s' /\
    events s'' = EvCritical "document closed" :: events s'.
Proof.
  intros Hpath Hopen Hd Hu s'.
  assert (Hn : not_closed s) by (unfold not_closed; rewrite Hd; exact (proj1 Hu)).
  pose proof (open_file_failure fitz_open path e s Hpath Hopen Hn) as Hfail.
  assert (Hafter : after_close s =
                   log_event EvClose
                     (set_pdf_document (Some (mkDocument (pages d) true)) s)).
  { unfold after_close. rewrite Hd.
    pose proof (page_count_pos d (proj2 Hu)) as Hpos.
    destruct (Z.eqb_spec (page_count d) 0) as [E|_]; [lia | reflexivity]. }
  assert (Hs' : s' = log_event (EvCritical (str e))
                       (log_event EvClose
                          (set_pdf_document (Some (mkDocument (pages d) true)) s))).
  { unfold s', exec. rewrite Hfail, Hafter. reflexivity. }
  assert (Hd' : pdf_document s' = Some (mkDocument (pages d) true))
    by (rewrite Hs'; reflexivity).
  assert (Hc : is_closed (mkDocument (pages d) true) = true) by reflexivity.
  split; [unfold outcome; rewrite Hfail; reflexivity |].
  split; [exact Hd' |].
  split; [rewrite Hs'; reflexivity |].
  split.
  { intros E. rewrite E, Hd in Hd'. injection Hd' as Hd'.
    rewrite Hd' in Hu. destruct Hu as [Hu _]. discriminate Hu. }
  split; [intros key; unfold outcome;
          rewrite (keyPressEvent_closed key s' _ Hd' Hc); reflexivity |].
  split; [intros control delta; unfold outcome;
          rewrite (wheelEvent_closed control delta s' _ Hd' Hc); reflexivity |].
  split; [unfold outcome; rewrite (prev_page_closed s' _ Hd' Hc); reflexivity |].
  split; [unfold outcome; rewrite (next_page_closed s' _ Hd' Hc); reflexivity |].
  split; [intros n; unfold outcome;
          rewrite (jump_to_page_closed n s' _ Hd' Hc); reflexivity |].
  split.
  { unfold outcome, zoom_in, bind, modify, render_page.
    erewrite render_all_pages_closed; [reflexivity | exact Hd' | exact Hc]. }
  split.
  { unfold outcome, zoom_out, bind, modify, render_page.
    erewrite render_all_pages_closed; [reflexivity | exact Hd' | exact Hc]. }
  split.
  { unfold outcome, toggle_color_invert, bind, modify, gets, render_page.
    destruct (invert_colors _);
      (erewrite render_all_pages_closed; [reflexivity | exact Hd' | exact Hc]). }
  split; [unfold outcome; rewrite (closeEvent_closed s' _ Hd' Hc); reflexivity |].
  intros fitz_open' path' Hpath' s''. unfold s'', exec.
  rewrite (open_file_closed fitz_open' path' s' _ Hpath' Hd' Hc).
  split; reflexivity.
Qed.

Lemma failed_open_leaves_viewer_unusable_witness :
  let s' := exec (open_file Examples.files "missing.pdf") Examples.viewing_a in
  let s'' := exec (open_file Examples.files "a.pdf") s' in
  pdf_document Examples.viewing_a = Some (mkDocument Examples.three_pages false) /\
  pdf_document s' = Some (mkDocument Examples.three_pages true) /\
  events s' = EvCritical "no such file" :: EvClose :: events Examples.viewing_a /\
  outcome next_page s' = Err document_closed /\
  pdf_document s'' = Some (mkDocument Examples.three_pages true) /\
  events s'' = EvCritical "document closed" :: events s'.
Proof.
  destruct (failed_open_leaves_viewer_unusable
              Examples.files "missing.pdf" (Exception "no such file")
              Examples.viewing_a (mkDocument Examples.three_pages false))
    as (_ & Hdoc & Hev & _ & _ & _ & _ & Hnext & _ & _ & _ & _ & _ & Hopen).
  - discriminate.
  - reflexivity.
  - reflexivity.
  - split; [reflexivity | discriminate].
  - destruct (Hopen Examples.files "a.pdf"%string) as [Hdoc' Hev'];
      [discriminate |].
    split; [reflexivity |]. split; [exact Hdoc |]. split; [exact Hev |].
    split; [exact Hnext |]. split; [| exact Hev'].
    rewrite Hdoc'. exact Hdoc.
Defined.

(** ** The first document *)

Lemma render_prefix_all_ok (invert : bool) (zoom : Q) (ps : list Page)
      (pixs : list Pixmap) :
  Forall2 (fun p pix => get_pixmap p zoom = Ok pix) ps pixs ->
  render_prefix invert zoom ps =
  (map (fun pix => if invert then invertPixels (image_of_pixmap pix)
                   else image_of_pixmap pix) pixs, None).
Proof.
  induction 1 as [|p pix ps pixs Hp Hrest IH]; simpl.
  - reflexivity.
  - unfold render_image. rewrite Hp, IH. reflexivity.
Qed.

(** C10.  [__init__] turns colour inversion on, and the first document
    opened, before any toggle, is shown inverted: the gallery holds the
    inverse of what the rasteriser made of each page. *)
Theorem first_document_inverted
        (fitz_open : string -> result (list Page)) (path : string)
        (ps : list Page) (pixs : list Pixmap) :
  path <> ""%string -> fitz_open path = Ok ps -> ps <> [] ->
  Forall2 (fun p pix => get_pixmap p (zoom_level init) = Ok pix) ps pixs ->
  invert_colors init = true /\
  invert_colors (exec (open_file fitz_open path) init) = true /\
  page_images (exec (open_file fitz_open path) init) =
    map (fun pix => invertPixels (image_of_pixmap pix)) pixs.
Proof.
  intros Hpath Hopen Hps Hpix.
  destruct (open_file_success fitz_open path ps init Hpath Hopen I)
    as (s2 & Heq & Hg).
  unfold gallery_view in Hg. injection Hg as Hd Hz Hi Himg Hlay.
  unfold exec at 1 2. rewrite Heq. cbn [snd].
  assert (Hu : usable (mkDocument ps false)) by (split; [reflexivity | exact Hps]).
  unfold exec. rewrite (render_all_pages_usable _ s2 Hd Hu).
  cbn [snd]. unfold rebuilt. rewrite Hi, Hz.
  rewrite (render_prefix_all_ok _ _ ps pixs Hpix).
  repeat split; reflexivity.
Qed.

Lemma first_document_inverted_witness :
  invert_colors init = true /\
  invert_colors (exec (open_file Examples.files "a.pdf") init) = true /\
  page_images (exec (open_file Examples.files "a.pdf") init) =
    [mkQImage [255; 245; 0] 1 100 3 Format_RGB888;
     mkQImage [254; 253; 252] 1 200 3 Format_RGB888;
     mkQImage [248; 247; 246] 1 300 3 Format_RGB888].
Proof.
  apply (first_document_inverted Examples.files "a.pdf" Examples.three_pages
           [mkPixmap [0; 10; 255] 1 100 3; mkPixmap [1; 2; 3] 1 200 3;
            mkPixmap [7; 8; 9] 1 300 3]).
  - discriminate.
  - reflexivity.
  - discriminate.
  - repeat constructor.
Defined.

(** ** The states the viewer can be in *)

Lemma consistent_view (s s' : PDFViewer) :
  gallery_view s' = gallery_view s -> consistent s -> consistent s'.
Proof.
  unfold gallery_view, consistent, gallery_shown, gallery_current.
  intros H. injection H as -> -> -> -> ->. auto.
Qed.

Lemma consistent_after_render (s : PDFViewer) :
  gallery_shown s -> consistent (exec render_all_pages s).
Proof.
  intros Hs. destruct (render_all_pages_cases s) as [[H Hno] | (d & Hd & Hu & H)];
    rewrite H.
  - split; [exact Hs |]. intros d Hd Hu. destruct (Hno d Hd Hu).
  - split.
    + eexists. reflexivity.
    + intros d' Hd' _. simpl in Hd'. rewrite Hd in Hd'. injection Hd' as <-.
      reflexivity.
Qed.

Lemma gallery_shown_view (s s' : PDFViewer) :
  page_images s' = page_images s -> pages_layout s' = pages_layout s ->
  gallery_shown s -> gallery_shown s'.
Proof. unfold gallery_shown. intros -> ->. auto. Qed.

Lemma len_document_state (s : PDFViewer) : snd (len_document s) = s.
Proof.
  unfold len_document, bind, the_document, lift.
  destruct (pdf_document s); reflexivity.
Qed.

Lemma next_page_view (s : PDFViewer) :
  gallery_view (exec next_page s) = gallery_view s.
Proof.
  unfold exec, next_page, bind at 1, gets. unfold bind at 1, lift.
  destruct (truthy (pdf_document s)) as [[|]|e]; try reflexivity.
  unfold bind at 1, gets. unfold bind at 1.
  pose proof (len_document_state s) as Hlen.
  destruct (len_document s) as [[n|e] s']; simpl in Hlen; subst s';
    [| reflexivity].
  destruct (current_page s <? n - 1); [| reflexivity].
  unfold bind, modify, gets. rewrite scroll_to_page_eq.
  destruct (in_gallery _ _); reflexivity.
Qed.

Lemma prev_page_view (s : PDFViewer) :
  gallery_view (exec prev_page s) = gallery_view s.
Proof.
  unfold exec, prev_page, bind at 1, gets. unfold bind at 1, lift.
  destruct (truthy (pdf_document s)) as [has_doc|e]; [| reflexivity].
  unfold bind at 1, gets.
  destruct (has_doc && (current_page s >? 0)); [| reflexivity].
  unfold bind, modify, gets. rewrite scroll_to_page_eq.
  destruct (in_gallery _ _); reflexivity.
Qed.

Lemma jump_to_page_view (n : Z) (s : PDFViewer) :
  gallery_view (exec (jump_to_page n) s) = gallery_view s.
Proof.
  unfold exec, jump_to_page, bind at 1, gets. unfold bind at 1, lift.
  destruct (truthy (pdf_document s)) as [[|]|e]; try reflexivity.
  unfold bind, modify, gets. rewrite scroll_to_page_eq.
  destruct (in_gallery _ _); reflexivity.
Qed.

Lemma spin_setValue_view (v : Z) (s : PDFViewer) :
  gallery_view (exec (spin_setValue v) s) = gallery_view s.
Proof.
  destruct (spin_store_keeps v s) as (signal & s1 & Hst & Hg).
  unfold exec, spin_setValue. rewrite (bind_ok _ _ _ _ _ Hst).
  destruct signal as [v'|].
  - fold (exec (jump_to_page v') s1). rewrite jump_to_page_view. exact Hg.
  - exact Hg.
Qed.

(** [zoom_in] and [zoom_out] are rebuilds under the new zoom level. *)
Lemma zoom_in_eq (s : PDFViewer) :
  zoom_in s =
  render_all_pages
    (set_zoom_label (py_int (Qmin (zoom_level s + 0.2) 5.0 * 100))
       (set_zoom_level (Qmin (zoom_level s + 0.2) 5.0) s)).
Proof. unfold zoom_in, bind, modify, render_page. reflexivity. Qed.

Lemma zoom_out_eq (s : PDFViewer) :
  zoom_out s =
  render_all_pages
    (set_zoom_label (py_int (Qmax (zoom_level s - 0.2) 0.2 * 100))
       (set_zoom_level (Qmax (zoom_level s - 0.2) 0.2) s)).
Proof. unfold zoom_out, bind, modify, render_page. reflexivity. Qed.

Lemma zoom_in_consistent (s : PDFViewer) :
  gallery_shown s -> consistent (exec zoom_in s).
Proof.
  intros Hs. unfold exec. rewrite zoom_in_eq.
  apply consistent_after_render. exact Hs.
Qed.

Lemma zoom_out_consistent (s : PDFViewer) :
  gallery_shown s -> consistent (exec zoom_out s).
Proof.
  intros Hs. unfold exec. rewrite zoom_out_eq.
  apply consistent_after_render. exact Hs.
Qed.

(** [toggle_color_invert] is a rebuild under the flipped setting. *)
Lemma toggle_color_invert_eq (s : PDFViewer) :
  toggle_color_invert s =
  render_all_pages
    (set_theme (if negb (invert_colors s) then DarkTheme else LightTheme)
       (set_invert_colors (negb (invert_colors s)) s)).
Proof.
  unfold toggle_color_invert, bind, modify, gets, render_page. simpl.
  destruct (invert_colors s); reflexivity.
Qed.

Lemma toggle_consistent (s : PDFViewer) :
  gallery_shown s -> consistent (exec toggle_color_invert s).
Proof.
  intros Hs. unfold exec. rewrite toggle_color_invert_eq.
  apply consistent_after_render. exact Hs.
Qed.

Lemma keyPressEvent_consistent (key : Key) (s : PDFViewer) :
  consistent s -> consistent (exec (keyPressEvent key) s).
Proof.
  intros Hs. pose proof (proj1 Hs) as Hshown.
  unfold exec, keyPressEvent, bind at 1, gets. unfold bind at 1, lift.
  destruct (truthy (pdf_document s)) as [[|]|e]; try exact Hs.
  cbn [negb].
  destruct key;
    lazymatch goal with
    | |- consistent (snd (next_page s)) =>
        apply (consistent_view s); [apply next_page_view | exact Hs]
    | |- consistent (snd (prev_page s)) =>
        apply (consistent_view s); [apply prev_page_view | exact Hs]
    | |- consistent (snd (zoom_in s)) =>
        apply zoom_in_consistent; exact Hshown
    | |- consistent (snd (zoom_out s)) =>
        apply zoom_out_consistent; exact Hshown
    | |- consistent (snd (toggle_color_invert s)) =>
        apply toggle_consistent; exact Hshown
    | |- consistent (snd (raise _ s)) => exact Hs
    | |- consistent (snd (ret _ s)) => exact Hs
    | |- _ => idtac
    end.
  - apply (consistent_after_render (set_current_page 0 s)). exact Hshown.
  - unfold bind at 1.
    pose proof (len_document_state s) as Hlen.
    destruct (len_document s) as [[n|e] s']; simpl in Hlen; subst s';
      [| exact Hs].
    apply (consistent_after_render (set_current_page (n - 1) s)). exact Hshown.
Qed.

Lemma wheelEvent_consistent (control : bool) (delta : Z) (s : PDFViewer) :
  consistent s -> consistent (exec (wheelEvent control delta) s).
Proof.
  intros Hs. pose proof (proj1 Hs) as Hshown.
  unfold exec, wheelEvent, bind at 1, gets. unfold bind at 1, lift.
  destruct (truthy (pdf_document s)) as [[|]|e]; try exact Hs.
  cbn [negb]. destruct control; [| exact Hs].
  destruct (delta >? 0).
  - apply zoom_in_consistent; exact Hshown.
  - apply zoom_out_consistent; exact Hshown.
Qed.

Lemma after_close_shown (s : PDFViewer) :
  page_images (after_close s) = page_images s /\
  pages_layout (after_close s) = pages_layout s.
Proof.
  unfold after_close.
  destruct (pdf_document s) as [d|]; [destruct (negb _) |]; split; reflexivity.
Qed.

Lemma after_close_current (s : PDFViewer) :
  gallery_current s -> gallery_current (after_close s).
Proof.
  unfold after_close. intros Hs.
  destruct (pdf_document s) as [d|] eqn:Hd; [| exact Hs].
  destruct (negb (page_count d =? 0)); [| exact Hs].
  intros d' Hd' [Hc _]. simpl in Hd'. injection Hd' as <-. discriminate Hc.
Qed.

Lemma open_file_consistent (path : string) (opened : result (list Page))
      (s : PDFViewer) :
  consistent s -> consistent (exec (open_file (fun _ => opened) path) s).
Proof.
  intros Hs. destruct (String.eqb_spec path "") as [E|Hpath].
  - subst path. exact Hs.
  - destruct (pdf_document s) as [d|] eqn:Hd.
    + destruct (is_closed d) eqn:Hc.
      * (* the document is closed: its truth value raises *)
        unfold exec, open_file.
        destruct (String.eqb_spec path "") as [E|_]; [contradiction |].
        unfold try_except, bind at 1, gets. unfold bind at 1, lift.
        rewrite Hd. unfold truthy, doc_len. rewrite Hc. exact Hs.
      * assert (Hn : not_closed s) by (unfold not_closed; rewrite Hd; exact Hc).
        destruct opened as [ps|e].
        -- destruct (open_file_success (fun _ => Ok ps) path ps s Hpath eq_refl Hn)
             as (s2 & Heq & Hg).
           unfold exec at 1. rewrite Heq. cbn [snd].
           apply (consistent_view (exec render_all_pages s2)); [reflexivity |].
           apply consistent_after_render.
           unfold gallery_view in Hg. injection Hg as _ _ _ Himg Hlay.
           apply (gallery_shown_view s); [exact Himg | exact Hlay | exact (proj1 Hs)].
        -- unfold exec.
           rewrite (open_file_failure (fun _ => Err e) path e s Hpath eq_refl Hn).
           cbn [snd]. destruct (after_close_shown s) as [Himg Hlay]. split.
           ++ apply (gallery_shown_view s); [exact Himg | exact Hlay | exact (proj1 Hs)].
           ++ apply (after_close_current s (proj2 Hs)).
    + assert (Hn : not_closed s) by (unfold not_closed; rewrite Hd; exact I).
      destruct opened as [ps|e].
      * destruct (open_file_success (fun _ => Ok ps) path ps s Hpath eq_refl Hn)
          as (s2 & Heq & Hg).
        unfold exec at 1. rewrite Heq. cbn [snd].
        apply (consistent_view (exec render_all_pages s2)); [reflexivity |].
        apply consistent_after_render.
        unfold gallery_view in Hg. injection Hg as _ _ _ Himg Hlay.
        apply (gallery_shown_view s); [exact Himg | exact Hlay | exact (proj1 Hs)].
      * unfold exec.
        rewrite (open_file_failure (fun _ => Err e) path e s Hpath eq_refl Hn).
        cbn [snd]. destruct (after_close_shown s) as [Himg Hlay]. split.
        -- apply (gallery_shown_view s); [exact Himg | exact Hlay | exact (proj1 Hs)].
        -- apply (after_close_current s (proj2 Hs)).
Qed.

Lemma run_consistent (c : Command) (s : PDFViewer) :
  consistent s -> consistent (exec (run c) s).
Proof.
  intros Hs. destruct c; cbn [run].
  - apply open_file_consistent; exact Hs.
  - apply keyPressEvent_consistent; exact Hs.
  - apply wheelEvent_consistent; exact Hs.
  - apply (consistent_view s); [apply prev_page_view | exact Hs].
  - apply (consistent_view s); [apply next_page_view | exact Hs].
  - apply (consistent_view s); [apply spin_setValue_view | exact Hs].
  - apply zoom_in_consistent; exact (proj1 Hs).
  - apply zoom_out_consistent; exact (proj1 Hs).
  - apply toggle_consistent; exact (proj1 Hs).
Qed.

Lemma init_consistent : consistent init.
Proof.
  split.
  - exists []. reflexivity.
  - intros d Hd. discriminate Hd.
Qed.

(** Every state the viewer reaches shows its gallery, and the gallery is
    up to date. *)
Lemma run_all_consistent (cmds : list Command) : consistent (run_all cmds).
Proof.
  unfold run_all. generalize init init_consistent.
  induction cmds as [|c cmds IH]; intros s Hs.
  - exact Hs.
  - cbn [fold_left]. apply IH, run_consistent, Hs.
Qed.

(** ** Toggling twice *)

(** C7.  In every state the viewer reaches, whatever document is open and
    whatever the zoom level, toggling colour inversion twice gives back the
    bitmaps the gallery held before the first toggle, with the settings
    they were rendered under. *)
Theorem toggle_twice_restores_gallery (cmds : list Command) :
  let s := run_all cmds in
  let s'' := exec toggle_color_invert (exec toggle_color_invert s) in
  page_images s'' = page_images s /\
  invert_colors s'' = invert_colors s /\
  zoom_level s'' = zoom_level s /\
  pdf_document s'' = pdf_document s.
Proof.
  intros s. pose proof (run_all_consistent cmds) as [_ Hcur]. fold s in Hcur.
  cbv zeta. unfold exec. rewrite (toggle_color_invert_eq s).
  set (s0 := set_theme (if negb (invert_colors s) then DarkTheme else LightTheme)
               (set_invert_colors (negb (invert_colors s)) s)).
  fold (exec render_all_pages s0).
  destruct (render_all_pages_cases s0) as [[H1 Hno] | (d & Hd & Hu & H1)];
    rewrite H1, toggle_color_invert_eq.
  - set (s1 := set_theme _ _). fold (exec render_all_pages s1).
    destruct (render_all_pages_cases s1) as [[H2 _] | (d & Hd & Hu & _)].
    + rewrite H2. simpl. rewrite negb_involutive. repeat split; reflexivity.
    + destruct (Hno d Hd Hu).
  - set (s1 := set_theme _ _). fold (exec render_all_pages s1).
    assert (Hd1 : pdf_document s1 = Some d) by exact Hd.
    unfold exec. rewrite (render_all_pages_usable d s1 Hd1 Hu).
    simpl. rewrite negb_involutive. repeat split; try reflexivity.
    symmetry. apply Hcur; [exact Hd | exact Hu].
Qed.

(** ** The scroll offset of a page *)

Lemma firstn_S_nth_error {A : Type} (l : list A) (n : nat) (x : A) :
  nth_error l n = Some x -> firstn (S n) l = firstn n l ++ [x].
Proof.
  revert n. induction l as [|y l IH]; intros [|n] H; try discriminate.
  - simpl in H. injection H as ->. reflexivity.
  - simpl in H.
    change (y :: firstn (S n) l = y :: (firstn n l ++ [x])).
    f_equal. apply IH, H.
Qed.

Lemma fold_right_add_app (l : list Z) (x : Z) :
  fold_right Z.add 0 (l ++ [x]) = fold_right Z.add 0 l + x.
Proof. induction l as [|y l IH]; simpl; lia. Qed.

Lemma scroll_position_of_labels (imgs : list QPixmap) (rest : list LayoutItem)
      (n : nat) :
  (n <= length imgs)%nat ->
  scroll_position_of (labels imgs ++ rest) (Z.of_nat n) =
  offset_before imgs (Z.of_nat n).
Proof.
  unfold scroll_position_of, offset_before, range. rewrite Nat2Z.id.
  induction n as [|n IH]; intros Hn.
  - reflexivity.
  - rewrite seq_S, map_app, fold_left_app. cbn [map fold_left Nat.add].
    rewrite IH by lia.
    destruct (nth_error imgs n) as [img|] eqn:Himg;
      [| apply nth_error_None in Himg; lia].
    assert (Hlt : (Z.of_nat n <? Z.of_nat (length (labels imgs ++ rest))) = true).
    { apply Z.ltb_lt. unfold labels. rewrite length_app, length_map. lia. }
    rewrite Hlt, Nat2Z.id.
    assert (Hitem : nth_error (labels imgs ++ rest) n =
                    Some (ItemWidget (mkQLabel img))).
    { unfold labels. rewrite nth_error_app1 by (rewrite length_map; lia).
      rewrite nth_error_map, Himg. reflexivity. }
    rewrite Hitem. cbn [item_widget].
    rewrite (firstn_S_nth_error imgs n img Himg), map_app.
    cbn [map]. rewrite fold_right_add_app. reflexivity.
Qed.

Lemma spin_setValue_same (v : Z) (s : PDFViewer) :
  Z.max (spin_minimum (page_spinbox s)) (Z.min v (spin_maximum (page_spinbox s)))
  = spin_value (page_spinbox s) ->
  spin_setValue v s = (Ok tt, s).
Proof.
  intros H. unfold spin_setValue, bind, spin_store. rewrite H, Z.eqb_refl.
  reflexivity.
Qed.

Lemma spin_setMaximum_same (m : Z) (s : PDFViewer) :
  Z.max (Z.min (spin_minimum (page_spinbox s)) m)
        (Z.min (spin_value (page_spinbox s)) m)
  = spin_value (page_spinbox s) ->
  spin_setMaximum m s =
  (Ok tt,
   set_page_spinbox
     (mkQSpinBox (Z.min (spin_minimum (page_spinbox s)) m) m
        (spin_value (page_spinbox s)) (spin_blocked (page_spinbox s))) s).
Proof.
  intros H. unfold spin_setMaximum, bind at 1, modify. unfold bind at 1, gets.
  apply spin_setValue_same. exact H.
Qed.

Lemma open_file_init (fitz_open : string -> result (list Page))
      (path : string) (ps : list Page) :
  path <> ""%string -> fitz_open path = Ok ps -> ps <> [] ->
  open_file fitz_open path init =
  (Ok tt, set_status_label (Some path)
            (rebuilt (mkDocument ps false) (opened_at_init path ps))).
Proof.
  intros Hpath Hopen Hps. unfold open_file.
  destruct (String.eqb_spec path "") as [E|_]; [contradiction |].
  assert (Hpc : 1 <= Z.of_nat (length ps)) by (destruct ps; [congruence | simpl; lia]).
  unfold try_except.
  unfold bind at 1, gets. unfold bind at 1, lift. cbn [init pdf_document truthy].
  unfold bind at 1, ret. unfold bind at 1. rewrite Hopen.
  unfold bind at 1, modify. unfold bind at 1. unfold bind at 1.
  unfold bind at 1, len_document, bind at 1, the_document.
  cbn [set_current_page log_event set_pdf_document pdf_document current_page
       zoom_level invert_colors page_images pages_layout scroll_value
       page_spinbox page_count_label zoom_label theme status_label events].
  unfold lift, doc_len. cbn [is_closed pages].
  erewrite bind_ok; [| apply spin_setMaximum_same; simpl; lia].
  unfold bind at 1.
  erewrite bind_ok; [| apply spin_setValue_same; simpl; lia].
  match goal with
  | |- context [bind render_all_pages _ ?s0] =>
      assert (Hs0 : s0 = opened_at_init path ps)
        by (unfold opened_at_init; cbn -[Z.min Z.of_nat];
            rewrite Z.min_l by lia; reflexivity);
      rewrite Hs0
  end.
  rewrite (bind_ok _ _ _ _ _
             (render_all_pages_usable (mkDocument ps false)
                (opened_at_init path ps) eq_refl (conj eq_refl Hps))).
  reflexivity.
Qed.

Lemma scroll_to_page_offset (p : Z) (s : PDFViewer) :
  gallery_shown s ->
  0 <= p < Z.of_nat (length (page_images s)) ->
  scroll_value (exec (scroll_to_page p) s) = offset_before (page_images s) p /\
  events (exec (scroll_to_page p) s) =
    EvSetScroll (offset_before (page_images s) p) :: events s.
Proof.
  intros [rest Hlay] Hp. unfold exec. rewrite scroll_to_page_eq.
  unfold in_gallery.
  destruct (Z.ltb_spec p 0); [lia |].
  destruct (Z.geb_spec p (Z.of_nat (length (page_images s)))); [lia |].
  cbn [orb negb snd scrolled scroll_value events]. rewrite Hlay.
  rewrite <- (Z2Nat.id p) by lia.
  rewrite scroll_position_of_labels by lia. split; reflexivity.
Qed.

(** C9.  In every state the viewer reaches, the scroll offset
    [scroll_to_page] computes for a page of the gallery is the sum, over
    the pages before it, of the rendered height plus the spacing of the
    layout.  In particular, after a document of three pages is opened at
    start-up and [next_page] is called twice, [current_page] is 2 and the
    offset is the heights of pages 0 and 1 plus two spacings. *)
Theorem scroll_offset_sums_heights :
  (forall (cmds : list Command) (p : Z),
     let s := run_all cmds in
     0 <= p < Z.of_nat (length (page_images s)) ->
     scroll_value (exec (scroll_to_page p) s) = offset_before (page_images s) p) /\
  (forall (fitz_open : string -> result (list Page)) (path : string)
          (p0 p1 p2 : Page) (pix0 pix1 pix2 : Pixmap),
     path <> ""%string -> fitz_open path = Ok [p0; p1; p2] ->
     get_pixmap p0 1.0 = Ok pix0 ->
     get_pixmap p1 1.0 = Ok pix1 ->
     get_pixmap p2 1.0 = Ok pix2 ->
     let s := exec next_page (exec next_page (exec (open_file fitz_open path) init)) in
     current_page s = 2 /\
     scroll_value s = height pix0 + height pix1 + 2 * layout_spacing).
Proof.
  split.
  - intros cmds p s Hp.
    apply scroll_to_page_offset; [apply run_all_consistent | exact Hp].
  - intros fitz_open path p0 p1 p2 pix0 pix1 pix2 Hpath Hopen H0 H1 H2.
    assert (Hpix : Forall2 (fun p pix => get_pixmap p 1.0 = Ok pix)
                     [p0; p1; p2] [pix0; pix1; pix2])
      by (repeat constructor; assumption).
    set (d := mkDocument [p0; p1; p2] false).
    assert (Hu : usable d) by (split; [reflexivity | discriminate]).
    unfold exec at 3.
    rewrite (open_file_init fitz_open path [p0; p1; p2] Hpath Hopen ltac:(discriminate)).
    cbn [snd]. unfold rebuilt.
    cbn [opened_at_init invert_colors zoom_level pages].
    rewrite (render_prefix_all_ok true 1.0 _ _ Hpix).
    match goal with
    | |- context [exec next_page (exec next_page ?s0)] => set (s1 := s0)
    end.
    assert (Hd1 : pdf_document s1 = Some d) by reflexivity.
    set (imgs := map (fun pix => invertPixels (image_of_pixmap pix))
                   [pix0; pix1; pix2]).
    assert (Hg1 : page_images s1 = imgs /\
                  pages_layout s1 = labels imgs ++ [ItemStretch]) by (split; reflexivity).
    assert (Hstep : forall s k,
              pdf_document s = Some d -> current_page s = k -> 0 <= k < 2 ->
              page_images s = imgs /\ pages_layout s = labels imgs ++ [ItemStretch] ->
              pdf_document (exec next_page s) = Some d /\
              current_page (exec next_page s) = k + 1 /\
              (page_images (exec next_page s) = imgs /\
               pages_layout (exec next_page s) = labels imgs ++ [ItemStretch]) /\
              scroll_value (exec next_page s) = offset_before imgs (k + 1)).
    { intros s k Hd Hk Hrange [Himg Hlay].
      pose proof (next_page_view s) as Hv. unfold gallery_view in Hv.
      injection Hv as Hvd _ _ Hvi Hvl.
      split; [congruence |]. split; [| split; [split; congruence |]].
      - unfold exec. rewrite (next_page_eq s d Hd Hu), Hk.
        replace (k <? page_count d - 1) with true
          by (symmetry; apply Z.ltb_lt; unfold page_count; simpl; lia).
        cbn [snd]. rewrite (proj2 (scroll_to_page_frame _ _)). reflexivity.
      - unfold exec. rewrite (next_page_eq s d Hd Hu), Hk.
        replace (k <? page_count d - 1) with true
          by (symmetry; apply Z.ltb_lt; unfold page_count; simpl; lia).
        cbn [snd].
        destruct (scroll_to_page_offset (k + 1) (set_current_page (k + 1) s))
          as [Hscroll _].
        + exists [ItemStretch]. simpl. rewrite Hlay, Himg. reflexivity.
        + simpl. rewrite Himg. simpl. lia.
        + rewrite Hscroll. simpl. rewrite Himg. reflexivity. }
    destruct (Hstep s1 0 Hd1 eq_refl ltac:(lia) Hg1) as (Hd2 & Hk2 & Hg2 & _).
    destruct (Hstep (exec next_page s1) 1 Hd2 Hk2 ltac:(lia) Hg2)
      as (_ & Hk3 & _ & Hscroll).
    split; [exact Hk3 |].
    rewrite Hscroll. unfold offset_before, imgs, layout_spacing. simpl. lia.
Qed.

Lemma scroll_offset_sums_heights_witness :
  scroll_value
    (exec (scroll_to_page 2)
       (run_all [CmdOpen "a.pdf"%string (Ok Examples.three_pages); CmdZoomIn])) = 380 /\
  scroll_value
    (exec next_page (exec next_page (exec (open_file Examples.files "a.pdf") init)))
  = 100 + 200 + 2 * layout_spacing.
Proof.
  destruct scroll_offset_sums_heights as [Hany Hthree]. split.
  - apply (Hany [CmdOpen "a.pdf"%string (Ok Examples.three_pages); CmdZoomIn] 2).
    vm_compute. split; congruence.
  - apply (Hthree Examples.files "a.pdf"%string
             (Examples.plain_page 100 0 10 255) (Examples.plain_page 200 1 2 3)
             (Examples.plain_page 300 7 8 9)
             (mkPixmap [0; 10; 255] 1 100 3) (mkPixmap [1; 2; 3] 1 200 3)
             (mkPixmap [7; 8; 9] 1 300 3));
      [discriminate | reflexivity | reflexivity | reflexivity | reflexivity].
Defined.

(** ** Navigation and rebuilds *)

(** Page turns and jumps leave the gallery alone and rasterise nothing:
    they log at most the scroll bar being set. *)
Lemma page_turns_keep_gallery (s : PDFViewer) (d : Document) (n : Z) :
  pdf_document s = Some d -> usable d ->
  Forall (fun m => gallery_view (exec m s) = gallery_view s /\
                   (events (exec m s) = events s \/
                    exists pos, events (exec m s) = EvSetScroll pos :: events s))
         [next_page; prev_page; jump_to_page n].
Proof.
  intros Hd Hu.
  assert (Hscroll : forall p s0,
             events (exec (scroll_to_page p) s0) = events s0 \/
             exists pos, events (exec (scroll_to_page p) s0) = EvSetScroll pos :: events s0).
  { intros p s0. unfold exec. rewrite scroll_to_page_eq.
    destruct (in_gallery p s0); [right; eexists; reflexivity | left; reflexivity]. }
  constructor; [split | constructor; [split | constructor; [split | constructor]]].
  - apply next_page_view.
  - unfold exec. rewrite (next_page_eq s d Hd Hu). cbn [snd].
    destruct (current_page s <? page_count d - 1); [| left; reflexivity].
    apply (Hscroll _ (set_current_page (current_page s + 1) s)).
  - apply prev_page_view.
  - unfold exec. rewrite (prev_page_eq s d Hd Hu). cbn [snd].
    destruct (current_page s >? 0); [| left; reflexivity].
    apply (Hscroll _ (set_current_page (current_page s - 1) s)).
  - apply jump_to_page_view.
  - unfold exec. rewrite (jump_to_page_eq n s d Hd Hu). cbn [snd].
    apply (Hscroll _ (set_current_page (n - 1) s)).
Qed.

(** C2 at the Home key.  With page 2 of a three-page document current and
    the scroll bar at its offset, the Home key sets [current_page] to 0,
    rasterises all three pages again and sets no scroll offset: the scroll
    bar and the spin box stay at page 3. *)
Theorem home_key_rebuilds_without_scrolling :
  let s := exec next_page (exec next_page Examples.viewing_a) in
  let s' := exec (keyPressEvent Key_Home) s in
  current_page s = 2 /\ scroll_value s = 320 /\
  current_page s' = 0 /\ scroll_value s' = 320 /\
  spin_value (page_spinbox s') = 3 /\
  events s' =
    [EvGetPixmap 2 1.0; EvGetPixmap 1 1.0; EvGetPixmap 0 1.0] ++ events s.
Proof.
  vm_compute. repeat split.
Qed.

(** ** Zoom on binary64 floats *)

(** 1.0 is a level, and [zoom_in] and [zoom_out] lead from levels to
    levels: [Binary64.levels] holds every zoom level the viewer can have. *)
Lemma binary64_levels_closed :
  In 1.0%float Binary64.levels /\
  forall z, In z Binary64.levels ->
    In (Binary64.zoom_in_level z) Binary64.levels /\
    In (Binary64.zoom_out_level z) Binary64.levels.
Proof.
  split.
  - unfold Binary64.levels. repeat first [left; reflexivity | right].
  - intros z H. unfold Binary64.levels in H.
    repeat (destruct H as [<-|H];
            [split; vm_compute; repeat first [left; reflexivity | right] |]).
    destruct H.
Qed.

(** On floats too, the round trip fails at 5.0 and nowhere else: from
    every other level the viewer can have, [zoom_in] and then [zoom_out]
    come back to it within the tolerance. *)
Lemma binary64_round_trip :
  PrimFloat.ltb (Binary64.zoom_out_level (Binary64.zoom_in_level 5.0)) 4.875 = true /\
  forall z, In z Binary64.levels -> z <> 5.0%float ->
    PrimFloat.leb
      (PrimFloat.abs (Binary64.zoom_out_level (Binary64.zoom_in_level z) - z))
      Binary64.tolerance = true.
Proof.
  split; [vm_compute; reflexivity |].
  intros z H Hz. unfold Binary64.levels in H.
  repeat (destruct H as [<-|H];
          [first [vm_compute; reflexivity | exfalso; apply Hz; reflexivity] |]).
  destruct H.
Qed.

(** * More of the viewer *)

(** ** Frame rules of the monad *)

Section Frame.

Variable R : PDFViewer -> PDFViewer -> Prop.
Hypothesis R_refl : forall s, R s s.
Hypothesis R_trans : forall s1 s2 s3, R s1 s2 -> R s2 s3 -> R s1 s3.

Lemma keeps_ret {A : Type} (a : A) : keeps R (ret a).
Proof. intros s. apply R_refl. Qed.

Lemma keeps_lift {A : Type} (r : result A) : keeps R (lift r).
Proof. intros s. apply R_refl. Qed.

Lemma keeps_raise {A : Type} (e : Exn) : keeps R (@raise A e).
Proof. intros s. apply R_refl. Qed.

Lemma keeps_gets {A : Type} (f : PDFViewer -> A) : keeps R (gets f).
Proof. intros s. apply R_refl. Qed.

Lemma keeps_modify (f : PDFViewer -> PDFViewer) :
  (forall s, R s (f s)) -> keeps R (modify f).
Proof. intros H s. apply H. Qed.

Lemma keeps_bind {A B : Type} (m : M A) (k : A -> M B) :
  keeps R m -> (forall a, keeps R (k a)) -> keeps R (bind m k).
Proof.
  intros Hm Hk s. specialize (Hm s). unfold exec, bind in *.
  destruct (m s) as [[a|e] s1]; cbn [snd] in *.
  - eapply R_trans; [exact Hm | apply Hk].
  - exact Hm.
Qed.

Lemma keeps_try_except {A : Type} (body : M A) (handler : Exn -> M A) :
  keeps R body -> (forall e, keeps R (handler e)) ->
  keeps R (try_except body handler).
Proof.
  intros Hb Hh s. specialize (Hb s). unfold exec, try_except in *.
  destruct (body s) as [[a|e] s1]; cbn [snd] in *.
  - exact Hb.
  - eapply R_trans; [exact Hb | apply Hh].
Qed.

Lemma keeps_for_each {A : Type} (l : list A) (body : A -> M unit) :
  (forall x, keeps R (body x)) -> keeps R (for_each l body).
Proof.
  intros Hb. induction l as [|x l IH]; cbn [for_each].
  - apply keeps_ret.
  - apply keeps_bind; [apply Hb | intros _; exact IH].
Qed.

Lemma keeps_len_document : keeps R len_document.
Proof. intros s. unfold exec. rewrite len_document_state. apply R_refl. Qed.

(** *** Navigation *)

Hypothesis R_current_page : forall v s, R s (set_current_page v s).
Hypothesis R_scrolled : forall p s, R s (scrolled p s).

Lemma keeps_scroll_to_page (p : Z) : keeps R (scroll_to_page p).
Proof.
  intros s. unfold exec. rewrite scroll_to_page_eq. cbn [snd].
  destruct (in_gallery p s); [apply R_scrolled | apply R_refl].
Qed.

Lemma keeps_next_page : keeps R next_page.
Proof.
  unfold next_page.
  apply keeps_bind; [apply keeps_gets | intros doc].
  apply keeps_bind; [apply keeps_lift | intros [|]]; [| apply keeps_ret].
  apply keeps_bind; [apply keeps_gets | intros cp].
  apply keeps_bind; [apply keeps_len_document | intros n].
  destruct (cp <? n - 1); [| apply keeps_ret].
  apply keeps_bind; [apply keeps_modify, R_current_page | intros _].
  apply keeps_bind; [apply keeps_gets | intros cp'].
  apply keeps_scroll_to_page.
Qed.

Lemma keeps_prev_page : keeps R prev_page.
Proof.
  unfold prev_page.
  apply keeps_bind; [apply keeps_gets | intros doc].
  apply keeps_bind; [apply keeps_lift | intros has_doc].
  apply keeps_bind; [apply keeps_gets | intros cp].
  destruct (has_doc && (cp >? 0)); [| apply keeps_ret].
  apply keeps_bind; [apply keeps_modify, R_current_page | intros _].
  apply keeps_bind; [apply keeps_gets | intros cp'].
  apply keeps_scroll_to_page.
Qed.

Lemma keeps_jump_to_page (n : Z) : keeps R (jump_to_page n).
Proof.
  unfold jump_to_page.
  apply keeps_bind; [apply keeps_gets | intros doc].
  apply keeps_bind; [apply keeps_lift | intros [|]]; [| apply keeps_ret].
  apply keeps_bind; [apply keeps_modify, R_current_page | intros _].
  apply keeps_bind; [apply keeps_gets | intros cp'].
  apply keeps_scroll_to_page.
Qed.

(** *** The spin box *)

Hypothesis R_spinbox :
  forall sb s,
    spin_minimum sb <= spin_minimum (page_spinbox s) ->
    spin_blocked sb = spin_blocked (page_spinbox s) ->
    R s (set_page_spinbox sb s).

Lemma keeps_spin_store (v : Z) : keeps R (spin_store v).
Proof.
  intros s. unfold exec, spin_store.
  destruct (Z.max _ _ =? spin_value (page_spinbox s)); cbn [snd].
  - apply R_refl.
  - apply R_spinbox; [simpl; lia | reflexivity].
Qed.

Lemma keeps_spin_setValue (v : Z) : keeps R (spin_setValue v).
Proof.
  unfold spin_setValue.
  apply keeps_bind; [apply keeps_spin_store | intros [v'|]].
  - apply keeps_jump_to_page.
  - apply keeps_ret.
Qed.

Lemma keeps_spin_setMaximum (m : Z) : keeps R (spin_setMaximum m).
Proof.
  unfold spin_setMaximum.
  apply keeps_bind.
  - apply keeps_modify. intros s. apply R_spinbox; [simpl; lia | reflexivity].
  - intros _. apply keeps_bind; [apply keeps_gets | intros v].
    apply keeps_spin_setValue.
Qed.

(** *** Rebuilds *)

Hypothesis R_rebuilt :
  forall d s, pdf_document s = Some d -> usable d -> R s (rebuilt d s).

Lemma keeps_render_all_pages : keeps R render_all_pages.
Proof.
  intros s. destruct (render_all_pages_cases s) as [[H _] | (d & Hd & Hu & H)];
    rewrite H.
  - apply R_refl.
  - apply R_rebuilt; assumption.
Qed.

(** *** Opening and closing *)

Hypothesis R_document : forall d s, R s (set_pdf_document d s).
Hypothesis R_log_lifecycle :
  forall e s,
    match e with
    | EvClose | EvOpen _ | EvCritical _ => True
    | _ => False
    end -> R s (log_event e s).
Hypothesis R_page_count_label : forall v s, R s (set_page_count_label v s).
Hypothesis R_status_label : forall v s, R s (set_status_label v s).

Lemma keeps_close_document : keeps R close_document.
Proof.
  unfold close_document.
  apply keeps_bind; [intros s; unfold exec, the_document;
                     destruct (pdf_document s); apply R_refl | intros d].
  apply keeps_bind; [apply keeps_lift | intros d'].
  apply keeps_bind; [apply keeps_modify, R_document | intros _].
  apply keeps_modify. intros s. apply R_log_lifecycle. exact I.
Qed.

Lemma keeps_closeEvent : keeps R closeEvent.
Proof.
  unfold closeEvent.
  apply keeps_bind; [apply keeps_gets | intros doc].
  apply keeps_bind; [apply keeps_lift | intros [|]].
  - apply keeps_close_document.
  - apply keeps_ret.
Qed.

Lemma keeps_open_file (fitz_open : string -> result (list Page)) (path : string) :
  keeps R (open_file fitz_open path).
Proof.
  unfold open_file. destruct (String.eqb path ""); [apply keeps_ret |].
  apply keeps_try_except.
  - apply keeps_bind; [apply keeps_gets | intros doc].
    apply keeps_bind; [apply keeps_lift | intros has_doc].
    apply keeps_bind;
      [destruct has_doc; [apply keeps_close_document | apply keeps_ret] | intros _].
    apply keeps_bind; [apply keeps_lift | intros new_pages].
    apply keeps_bind; [apply keeps_modify, R_document | intros _].
    apply keeps_bind;
      [apply keeps_modify; intros s; apply R_log_lifecycle; exact I | intros _].
    apply keeps_bind; [apply keeps_modify, R_current_page | intros _].
    apply keeps_bind; [apply keeps_len_document | intros page_count].
    apply keeps_bind; [apply keeps_spin_setMaximum | intros _].
    apply keeps_bind; [apply keeps_modify, R_page_count_label | intros _].
    apply keeps_bind; [apply keeps_spin_setValue | intros _].
    apply keeps_bind; [apply keeps_render_all_pages | intros _].
    apply keeps_modify, R_status_label.
  - intros e. apply keeps_modify. intros s. apply R_log_lifecycle. exact I.
Qed.

(** *** Input dispatch *)

Hypothesis R_zoom_in : keeps R zoom_in.
Hypothesis R_zoom_out : keeps R zoom_out.
Hypothesis R_toggle : keeps R toggle_color_invert.

Lemma keeps_keyPressEvent (key : Key) : keeps R (keyPressEvent key).
Proof.
  unfold keyPressEvent.
  apply keeps_bind; [apply keeps_gets | intros doc].
  apply keeps_bind; [apply keeps_lift | intros has_doc].
  destruct (negb has_doc); [apply keeps_ret |].
  destruct key;
    first [ apply keeps_next_page | apply keeps_prev_page | exact R_zoom_in
          | exact R_zoom_out | exact R_toggle | apply keeps_raise
          | apply keeps_ret | idtac ].
  - apply keeps_bind; [apply keeps_modify, R_current_page | intros _].
    apply keeps_render_all_pages.
  - apply keeps_bind; [apply keeps_len_document | intros n].
    apply keeps_bind; [apply keeps_modify, R_current_page | intros _].
    apply keeps_render_all_pages.
Qed.

Lemma keeps_wheelEvent (control : bool) (delta : Z) :
  keeps R (wheelEvent control delta).
Proof.
  unfold wheelEvent.
  apply keeps_bind; [apply keeps_gets | intros doc].
  apply keeps_bind; [apply keeps_lift | intros has_doc].
  destruct (negb has_doc); [apply keeps_ret |].
  destruct control; [| apply keeps_ret].
  destruct (delta >? 0); [exact R_zoom_in | exact R_zoom_out].
Qed.

Lemma keeps_run (c : Command) : keeps R (run c).
Proof.
  destruct c; cbn [run].
  - apply keeps_open_file.
  - apply keeps_keyPressEvent.
  - apply keeps_wheelEvent.
  - apply keeps_prev_page.
  - apply keeps_next_page.
  - apply keeps_spin_setValue.
  - exact R_zoom_in.
  - exact R_zoom_out.
  - exact R_toggle.
Qed.

(** What relates a state to itself and is kept by every command relates
    start-up to every state the viewer reaches. *)
Lemma keeps_run_all (cmds : list Command) : R init (run_all cmds).
Proof.
  unfold run_all. generalize init. intros s0.
  assert (H : forall s, R s0 s ->
                        R s0 (fold_left (fun s c => exec (run c) s) cmds s)).
  { induction cmds as [|c cmds IH]; intros s Hs; cbn [fold_left].
    - exact Hs.
    - apply IH. eapply R_trans; [exact Hs | apply keeps_run]. }
  apply H, R_refl.
Qed.

End Frame.

(** ** Settings and what shows them *)

Lemma stays_settled_render : keeps stays_settled render_all_pages.
Proof.
  apply keeps_render_all_pages.
  - intros s H. exact H.
  - intros d s _ _ H. exact H.
Qed.

Lemma stays_settled_zoom_in : keeps stays_settled zoom_in.
Proof.
  intros s (Hz & _ & Ht). unfold exec. rewrite zoom_in_eq.
  apply stays_settled_render. split; [| split; [reflexivity | exact Ht]].
  cbn [zoom_level set_zoom_label set_zoom_level].
  destruct (Q.min_spec (zoom_level s + 0.2) 5.0) as [[Hc Hmin]|[Hc Hmin]]; lra.
Qed.

Lemma stays_settled_zoom_out : keeps stays_settled zoom_out.
Proof.
  intros s (Hz & _ & Ht). unfold exec. rewrite zoom_out_eq.
  apply stays_settled_render. split; [| split; [reflexivity | exact Ht]].
  cbn [zoom_level set_zoom_label set_zoom_level].
  destruct (Q.max_spec (zoom_level s - 0.2) 0.2) as [[Hc Hmax]|[Hc Hmax]]; lra.
Qed.

Lemma stays_settled_toggle : keeps stays_settled toggle_color_invert.
Proof.
  intros s (Hz & Hl & _). unfold exec. rewrite toggle_color_invert_eq.
  apply stays_settled_render. split; [exact Hz | split; [exact Hl | reflexivity]].
Qed.

Lemma run_all_settled (cmds : list Command) : settled (run_all cmds).
Proof.
  apply (keeps_run_all stays_settled);
    try (intros; intros Hsettled; exact Hsettled).
  - intros s1 s2 s3 H12 H23 H. exact (H23 (H12 H)).
  - exact stays_settled_zoom_in.
  - exact stays_settled_zoom_out.
  - exact stays_settled_toggle.
  - split; [split; vm_compute; discriminate | split; reflexivity].
Qed.

(** X1.  Whatever the user does, the zoom level stays within 0.2 and 5.0. *)
Theorem zoom_level_stays_in_range (cmds : list Command) :
  (0.2 <= zoom_level (run_all cmds))%Q /\ (zoom_level (run_all cmds) <= 5.0)%Q.
Proof. exact (proj1 (run_all_settled cmds)). Qed.

(** X2.  Whatever the user does, the zoom label shows the zoom level as
    [int(zoom_level * 100)] percent. *)
Theorem zoom_label_shows_level (cmds : list Command) :
  zoom_label (run_all cmds) = py_int (zoom_level (run_all cmds) * 100).
Proof. exact (proj1 (proj2 (run_all_settled cmds))). Qed.

(** X3.  Whatever the user does, the toggle button and the background are
    those of the inversion setting: dark when colours are inverted, light
    when they are not. *)
Theorem theme_follows_inversion (cmds : list Command) :
  theme (run_all cmds) =
  (if invert_colors (run_all cmds) then DarkTheme else LightTheme).
Proof. exact (proj2 (proj2 (run_all_settled cmds))). Qed.

(** ** Input without a document, and the keys that do nothing *)

(** X4.  With no document open, every key, the wheel, the page buttons,
    a jump and [closeEvent] leave the viewer as it is and raise nothing;
    the P key too, which raises once a document is open. *)
Theorem input_ignored_without_document (s : PDFViewer) :
  pdf_document s = None ->
  (forall key, keyPressEvent key s = (Ok tt, s)) /\
  (forall control delta, wheelEvent control delta s = (Ok tt, s)) /\
  next_page s = (Ok tt, s) /\
  prev_page s = (Ok tt, s) /\
  (forall n, jump_to_page n s = (Ok tt, s)) /\
  closeEvent s = (Ok tt, s).
Proof.
  intros Hd.
  repeat split; intros;
    unfold keyPressEvent, wheelEvent, next_page, prev_page, jump_to_page,
           closeEvent, bind, gets, lift;
    rewrite Hd; reflexivity.
Qed.

Lemma input_ignored_without_document_witness :
  keyPressEvent Key_P init = (Ok tt, init) /\
  wheelEvent true 120 init = (Ok tt, init).
Proof.
  destruct (input_ignored_without_document init eq_refl) as (Hkey & Hwheel & _).
  split; [apply Hkey | apply Hwheel].
Defined.

(** X5.  With a document open, the P key raises: it calls
    [toggle_auto_play], which the class does not define.  The viewer is
    left as it was. *)
Theorem key_p_raises (s : PDFViewer) (d : Document) :
  pdf_document s = Some d -> usable d ->
  exists msg, keyPressEvent Key_P s = (Err (Exception msg), s).
Proof.
  intros Hd Hu. eexists.
  unfold keyPressEvent, bind, gets, lift.
  rewrite Hd, (truthy_usable d Hu). reflexivity.
Qed.

Lemma key_p_raises_witness :
  exists msg, keyPressEvent Key_P Examples.viewing_a =
              (Err (Exception msg), Examples.viewing_a).
Proof.
  apply (key_p_raises Examples.viewing_a (mkDocument Examples.three_pages false)).
  - reflexivity.
  - split; [reflexivity | discriminate].
Defined.

(** X6.  With a document open, the wheel zooms only while Control is held:
    in for a positive angle delta and out otherwise, so out for a delta of
    0 as well.  Without Control it changes nothing. *)
Theorem wheel_zooms_with_control (s : PDFViewer) (d : Document) (delta : Z) :
  pdf_document s = Some d -> usable d ->
  wheelEvent true delta s = (if delta >? 0 then zoom_in s else zoom_out s) /\
  zoom_level (exec (wheelEvent true delta) s) =
    (if delta >? 0 then Qmin (zoom_level s + 0.2) 5.0
     else Qmax (zoom_level s - 0.2) 0.2) /\
  wheelEvent false delta s = (Ok tt, s).
Proof.
  intros Hd Hu.
  assert (Hwheel : wheelEvent true delta s =
                   (if delta >? 0 then zoom_in s else zoom_out s)).
  { unfold wheelEvent, bind at 1, gets. unfold bind at 1, lift.
    rewrite Hd, (truthy_usable d Hu). cbn [negb].
    destruct (delta >? 0); reflexivity. }
  split; [exact Hwheel | split].
  - unfold exec. rewrite Hwheel.
    destruct (delta >? 0); [apply zoom_in_level | apply zoom_out_level].
  - unfold wheelEvent, bind, gets, lift.
    rewrite Hd, (truthy_usable d Hu). reflexivity.
Qed.

Lemma wheel_zooms_with_control_witness :
  (zoom_level (exec (wheelEvent true 0) Examples.viewing_a) == 0.8)%Q.
Proof.
  destruct (wheel_zooms_with_control Examples.viewing_a
              (mkDocument Examples.three_pages false) 0)
    as (_ & Hlevel & _).
  - reflexivity.
  - split; [reflexivity | discriminate].
  - rewrite Hlevel. vm_compute. reflexivity.
Defined.

(** ** Zooming all the way *)

Lemma zoom_out_times_level (n : nat) (s : PDFViewer) :
  (0.2 <= zoom_level s)%Q ->
  (zoom_level (times n zoom_out s)
   == Qmax (zoom_level s - inject_Z (Z.of_nat n) * 0.2) 0.2)%Q.
Proof.
  intros Hlo. induction n as [|n IH].
  - cbn [times]. change (inject_Z (Z.of_nat 0)) with 0%Q.
    match goal with
    | |- context [Qmax ?x ?y] =>
        destruct (Q.max_spec x y) as [[Hc H]|[Hc H]]; lra
    end.
  - cbn [times]. rewrite zoom_out_level.
    assert (Hs : (inject_Z (Z.of_nat (S n)) == inject_Z (Z.of_nat n) + 1)%Q).
    { rewrite Nat2Z.inj_succ. unfold Z.succ. rewrite inject_Z_plus. reflexivity. }
    set (a := inject_Z (Z.of_nat n)) in *.
    set (b := inject_Z (Z.of_nat (S n))) in *.
    set (z := zoom_level (times n zoom_out s)) in *.
    destruct (Q.max_spec (zoom_level s - a * 0.2) 0.2) as [[Hc1 H1]|[Hc1 H1]];
      destruct (Q.max_spec (zoom_level s - b * 0.2) 0.2) as [[Hc2 H2]|[Hc2 H2]];
      destruct (Q.max_spec (z - 0.2) 0.2) as [[Hc3 H3]|[Hc3 H3]]; lra.
Qed.

Lemma zoom_in_times_level (n : nat) (s : PDFViewer) :
  (zoom_level s <= 5.0)%Q ->
  (zoom_level (times n zoom_in s)
   == Qmin (zoom_level s + inject_Z (Z.of_nat n) * 0.2) 5.0)%Q.
Proof.
  intros Hhi. induction n as [|n IH].
  - cbn [times]. change (inject_Z (Z.of_nat 0)) with 0%Q.
    match goal with
    | |- context [Qmin ?x ?y] =>
        destruct (Q.min_spec x y) as [[Hc H]|[Hc H]]; lra
    end.
  - cbn [times]. rewrite zoom_in_level.
    assert (Hs : (inject_Z (Z.of_nat (S n)) == inject_Z (Z.of_nat n) + 1)%Q).
    { rewrite Nat2Z.inj_succ. unfold Z.succ. rewrite inject_Z_plus. reflexivity. }
    set (a := inject_Z (Z.of_nat n)) in *.
    set (b := inject_Z (Z.of_nat (S n))) in *.
    set (z := zoom_level (times n zoom_in s)) in *.
    destruct (Q.min_spec (zoom_level s + a * 0.2) 5.0) as [[Hc1 H1]|[Hc1 H1]];
      destruct (Q.min_spec (zoom_level s + b * 0.2) 5.0) as [[Hc2 H2]|[Hc2 H2]];
      destruct (Q.min_spec (z + 0.2) 5.0) as [[Hc3 H3]|[Hc3 H3]]; lra.
Qed.

(** X7.  From any zoom level of 0.2..5.0, [zoom_out] called 24 times or
    more ends at 0.2 and [zoom_in] called 24 times or more ends at 5.0: the
    bounds are reached and further calls stay there. *)
Theorem zoom_reaches_bounds (n : nat) (s : PDFViewer) :
  (0.2 <= zoom_level s)%Q -> (zoom_level s <= 5.0)%Q -> (24 <= n)%nat ->
  (zoom_level (times n zoom_out s) == 0.2)%Q /\
  (zoom_level (times n zoom_in s) == 5.0)%Q.
Proof.
  intros Hlo Hhi Hn.
  assert (Hq : (24 <= inject_Z (Z.of_nat n))%Q).
  { change 24%Q with (inject_Z 24). rewrite <- Zle_Qle. lia. }
  rewrite (zoom_out_times_level n s Hlo), (zoom_in_times_level n s Hhi).
  set (a := inject_Z (Z.of_nat n)) in *.
  destruct (Q.max_spec (zoom_level s - a * 0.2) 0.2) as [[Hc1 H1]|[Hc1 H1]];
    destruct (Q.min_spec (zoom_level s + a * 0.2) 5.0) as [[Hc2 H2]|[Hc2 H2]];
    split; lra.
Qed.

Lemma zoom_reaches_bounds_witness :
  (zoom_level (times 30 zoom_out Examples.viewing_a) == 0.2)%Q /\
  (zoom_level (times 30 zoom_in Examples.viewing_a) == 5.0)%Q.
Proof.
  apply (zoom_reaches_bounds 30 Examples.viewing_a);
    [vm_compute; discriminate | vm_compute; discriminate | lia].
Defined.

(** ** Turning back *)

(** X8.  With a document open, [next_page] and then [prev_page] come back
    to the page they started from unless that was the last page, and
    [prev_page] and then [next_page] do unless it was page 0. *)
Theorem next_prev_round_trip (s : PDFViewer) (d : Document) :
  pdf_document s = Some d -> usable d ->
  (0 <= current_page s < page_count d - 1 ->
   current_page (exec prev_page (exec next_page s)) = current_page s) /\
  (0 < current_page s < page_count d ->
   current_page (exec next_page (exec prev_page s)) = current_page s).
Proof.
  intros Hd Hu.
  assert (Hnext : forall s0, pdf_document s0 = Some d ->
            current_page s0 < page_count d - 1 ->
            current_page (exec next_page s0) = current_page s0 + 1).
  { intros s0 Hd0 Hlt. unfold exec. rewrite (next_page_eq s0 d Hd0 Hu).
    destruct (Z.ltb_spec (current_page s0) (page_count d - 1)); [| lia].
    cbn [snd]. rewrite (proj2 (scroll_to_page_frame _ _)). reflexivity. }
  assert (Hprev : forall s0, pdf_document s0 = Some d ->
            0 < current_page s0 ->
            current_page (exec prev_page s0) = current_page s0 - 1).
  { intros s0 Hd0 Hgt. unfold exec. rewrite (prev_page_eq s0 d Hd0 Hu).
    destruct (Z.gtb_spec (current_page s0) 0); [| lia].
    cbn [snd]. rewrite (proj2 (scroll_to_page_frame _ _)). reflexivity. }
  split; intros Hcp.
  - assert (Hd' : pdf_document (exec next_page s) = Some d).
    { pose proof (next_page_view s) as Hv. unfold gallery_view in Hv. congruence. }
    rewrite (Hprev _ Hd'); rewrite (Hnext s Hd); lia.
  - assert (Hd' : pdf_document (exec prev_page s) = Some d).
    { pose proof (prev_page_view s) as Hv. unfold gallery_view in Hv. congruence. }
    rewrite (Hnext _ Hd'); rewrite (Hprev s Hd); lia.
Qed.

Lemma next_prev_round_trip_witness :
  current_page (exec prev_page (exec next_page Examples.viewing_a)) = 0.
Proof.
  destruct (next_prev_round_trip Examples.viewing_a
              (mkDocument Examples.three_pages false)) as [Hnp _].
  - reflexivity.
  - split; [reflexivity | discriminate].
  - apply Hnp. vm_compute. split; congruence.
Defined.

(** ** Rebuilding what is already there *)

(** X9.  In every state the viewer reaches, a rebuild of the gallery
    changes no bitmap: [render_all_pages] called again without a change of
    document or settings yields the bitmaps the gallery holds. *)
Theorem rebuild_is_idempotent (cmds : list Command) :
  page_images (exec render_all_pages (run_all cmds)) = page_images (run_all cmds).
Proof.
  destruct (run_all_consistent cmds) as [_ Hcur].
  destruct (render_all_pages_cases (run_all cmds)) as [[H _] | (d & Hd & Hu & H)];
    rewrite H; [reflexivity |].
  symmetry. apply (Hcur d Hd Hu).
Qed.

(** X10.  In every state the viewer reaches with a document open, the
    Home key makes page 0 the current page and the End key the last page,
    and the bitmaps of the gallery are the same afterwards. *)
Theorem home_end_set_current_page (cmds : list Command) (d : Document) :
  pdf_document (run_all cmds) = Some d -> usable d ->
  current_page (exec (keyPressEvent Key_Home) (run_all cmds)) = 0 /\
  page_images (exec (keyPressEvent Key_Home) (run_all cmds)) =
    page_images (run_all cmds) /\
  current_page (exec (keyPressEvent Key_End) (run_all cmds)) = page_count d - 1 /\
  page_images (exec (keyPressEvent Key_End) (run_all cmds)) =
    page_images (run_all cmds).
Proof.
  intros Hd Hu. destruct (run_all_consistent cmds) as [_ Hcur].
  unfold exec. rewrite (key_home_eq _ d Hd Hu), (key_end_eq _ d Hd Hu).
  cbn [snd rebuilt current_page page_images set_current_page invert_colors
       zoom_level].
  rewrite <- (Hcur d Hd Hu). repeat split; reflexivity.
Qed.

Lemma home_end_set_current_page_witness :
  current_page
    (exec (keyPressEvent Key_End)
       (run_all [CmdOpen "a.pdf"%string (Ok Examples.three_pages)])) = 2.
Proof.
  destruct (home_end_set_current_page
              [CmdOpen "a.pdf"%string (Ok Examples.three_pages)]
              (mkDocument Examples.three_pages false))
    as (_ & _ & Hend & _).
  - reflexivity.
  - split; [reflexivity | discriminate].
  - exact Hend.
Defined.

(** ** What page turns do not do *)

Lemma only_scrolled_refl (s : PDFViewer) : only_scrolled s s.
Proof. split; [reflexivity | exists []; split; [reflexivity | constructor]]. Qed.

Lemma only_scrolled_trans (s1 s2 s3 : PDFViewer) :
  only_scrolled s1 s2 -> only_scrolled s2 s3 -> only_scrolled s1 s3.
Proof.
  intros [Hg1 (l1 & He1 & Hl1)] [Hg2 (l2 & He2 & Hl2)].
  split; [congruence |].
  exists (l2 ++ l1). split.
  - rewrite He2, He1, app_assoc. reflexivity.
  - apply Forall_app. split; assumption.
Qed.

(** X11.  In any state, open document or not, the page buttons, a jump
    and an edit of the spin box never rebuild the gallery: document, zoom
    level, inversion, bitmaps and layout are untouched, no page is
    rasterised, no dialog is shown and no document is closed; all they log
    is the scroll bar being set. *)
Theorem page_turns_only_scroll (s : PDFViewer) (n : Z) :
  only_scrolled s (exec next_page s) /\
  only_scrolled s (exec prev_page s) /\
  only_scrolled s (exec (jump_to_page n) s) /\
  only_scrolled s (exec (spin_setValue n) s).
Proof.
  assert (Hcp : forall v s0, only_scrolled s0 (set_current_page v s0)).
  { intros v s0. split; [reflexivity |].
    exists []. split; [reflexivity | constructor]. }
  assert (Hsc : forall p s0, only_scrolled s0 (scrolled p s0)).
  { intros p s0. split; [reflexivity |].
    exists [EvSetScroll (scroll_position_of (pages_layout s0) p)].
    split; [reflexivity | repeat constructor; eexists; reflexivity]. }
  assert (Hsb : forall sb s0,
             spin_minimum sb <= spin_minimum (page_spinbox s0) ->
             spin_blocked sb = spin_blocked (page_spinbox s0) ->
             only_scrolled s0 (set_page_spinbox sb s0)).
  { intros sb s0 _ _. split; [reflexivity |].
    exists []. split; [reflexivity | constructor]. }
  split; [| split; [| split]].
  - apply (keeps_next_page only_scrolled only_scrolled_refl only_scrolled_trans Hcp Hsc).
  - apply (keeps_prev_page only_scrolled only_scrolled_refl only_scrolled_trans Hcp Hsc).
  - apply (keeps_jump_to_page only_scrolled only_scrolled_refl only_scrolled_trans
             Hcp Hsc).
  - apply (keeps_spin_setValue only_scrolled only_scrolled_refl only_scrolled_trans
             Hcp Hsc Hsb).
Qed.

(** ** The length of the gallery *)

Lemma render_prefix_length (invert : bool) (zoom : Q) (ps : list Page) :
  (length (fst (render_prefix invert zoom ps)) <= length ps)%nat /\
  ((forall p, In p ps -> exists pix, get_pixmap p zoom = Ok pix) ->
   length (fst (render_prefix invert zoom ps)) = length ps).
Proof.
  induction ps as [|p ps [IHle IHeq]]; cbn [render_prefix].
  - split; [apply Nat.le_refl | reflexivity].
  - unfold render_image. destruct (get_pixmap p zoom) as [pix|e] eqn:Hp.
    + destruct (render_prefix invert zoom ps) as [imgs err]. cbn [fst length] in *.
      split; [lia |]. intros Hall. f_equal. apply IHeq.
      intros q Hq. apply Hall. right. exact Hq.
    + cbn [fst length]. split; [lia |]. intros Hall.
      destruct (Hall p (or_introl eq_refl)) as [pix Hpix]. congruence.
Qed.

(** X12.  In every state the viewer reaches with a document open, the
    gallery holds no more bitmaps than the document has pages, and exactly
    one for each page when the rasteriser fails on none of them at the
    zoom level in force. *)
Theorem gallery_length (cmds : list Command) (d : Document) :
  pdf_document (run_all cmds) = Some d -> usable d ->
  (length (page_images (run_all cmds)) <= length (pages d))%nat /\
  ((forall p, In p (pages d) ->
      exists pix, get_pixmap p (zoom_level (run_all cmds)) = Ok pix) ->
   length (page_images (run_all cmds)) = length (pages d)).
Proof.
  intros Hd Hu. destruct (run_all_consistent cmds) as [_ Hcur].
  rewrite (Hcur d Hd Hu). apply render_prefix_length.
Qed.

Lemma gallery_length_witness :
  (length (page_images (run_all [CmdOpen "b.pdf"%string (Ok Examples.second_broken)]))
   <= 3)%nat.
Proof.
  destruct (gallery_length [CmdOpen "b.pdf"%string (Ok Examples.second_broken)]
              (mkDocument Examples.second_broken false)) as [Hle _].
  - reflexivity.
  - split; [reflexivity | discriminate].
  - exact Hle.
Defined.

(** ** Jumps past the gallery *)

(** X13.  With a document open, a jump to a page the gallery has no
    bitmap for (a page number below 1 or beyond the gallery) sets
    [current_page] and nothing else: the scroll bar and the spin box stay
    where they were.  A jump to a page of the gallery also scrolls to it
    and shows its number in the spin box. *)
Theorem jump_outside_gallery (s : PDFViewer) (d : Document) (n : Z) :
  pdf_document s = Some d -> usable d ->
  (n < 1 \/ Z.of_nat (length (page_images s)) < n ->
   exec (jump_to_page n) s = set_current_page (n - 1) s) /\
  (1 <= n <= Z.of_nat (length (page_images s)) ->
   exec (jump_to_page n) s = scrolled (n - 1) (set_current_page (n - 1) s)).
Proof.
  intros Hd Hu. unfold exec. rewrite (jump_to_page_eq n s d Hd Hu).
  cbn [snd]. unfold exec. rewrite scroll_to_page_eq. cbn [snd].
  unfold in_gallery. cbn [page_images set_current_page].
  destruct (Z.ltb_spec (n - 1) 0);
    destruct (Z.geb_spec (n - 1) (Z.of_nat (length (page_images s))));
    cbn [orb negb]; split; intros; first [reflexivity | lia].
Qed.

Lemma jump_outside_gallery_witness :
  exec (jump_to_page 8) Examples.viewing_a = set_current_page 7 Examples.viewing_a.
Proof.
  destruct (jump_outside_gallery Examples.viewing_a
              (mkDocument Examples.three_pages false) 8) as [Hout _].
  - reflexivity.
  - split; [reflexivity | discriminate].
  - apply Hout. right. vm_compute. reflexivity.
Defined.

(** ** Opening a document *)

Lemma run_all_spin_ready (cmds : list Command) : spin_ready (run_all cmds).
Proof.
  assert (Hrender : keeps stays_spin_ready render_all_pages).
  { apply keeps_render_all_pages.
    - intros s H. exact H.
    - intros d s _ _ H. exact H. }
  apply (keeps_run_all stays_spin_ready);
    try (intros; intros Hready; exact Hready).
  - intros s1 s2 s3 H12 H23 H. exact (H23 (H12 H)).
  - intros p s [_ Hmin]. split; [reflexivity | exact Hmin].
  - intros sb s Hmin Hbl [Hb Hm]. unfold spin_ready. cbn [page_spinbox set_page_spinbox].
    split; [congruence | lia].
  - intros s Hs. unfold exec. rewrite zoom_in_eq. apply Hrender. exact Hs.
  - intros s Hs. unfold exec. rewrite zoom_out_eq. apply Hrender. exact Hs.
  - intros s Hs. unfold exec. rewrite toggle_color_invert_eq. apply Hrender. exact Hs.
  - split; [reflexivity | exact (Z.le_refl _)].
Qed.

Lemma spin_setValue_eq (v : Z) (s : PDFViewer) (d : Document) :
  pdf_document s = Some d -> usable d ->
  spin_blocked (page_spinbox s) = false ->
  let sb := page_spinbox s in
  let c := Z.max (spin_minimum sb) (Z.min v (spin_maximum sb)) in
  spin_setValue v s =
  (Ok tt,
   if c =? spin_value sb then s
   else exec (scroll_to_page (c - 1))
          (set_current_page (c - 1)
             (set_page_spinbox
                (mkQSpinBox (spin_minimum sb) (spin_maximum sb) c false) s))).
Proof.
  intros Hd Hu Hb. cbv zeta. unfold spin_setValue, bind, spin_store.
  rewrite Hb.
  destruct (Z.max _ _ =? spin_value (page_spinbox s)); [reflexivity |].
  rewrite (jump_to_page_eq _ (set_page_spinbox _ s) d Hd Hu). reflexivity.
Qed.

(** What [spin_setValue v] does to the spin box and the current page of a
    viewer with a document open and signals not blocked: the value
    becomes [v] brought into the range, and when that changes it the jump
    makes it the current page number. *)
Lemma spin_setValue_summary (v : Z) (s : PDFViewer) (d : Document) :
  pdf_document s = Some d -> usable d ->
  spin_blocked (page_spinbox s) = false ->
  let sb := page_spinbox s in
  let c := Z.max (spin_minimum sb) (Z.min v (spin_maximum sb)) in
  let s' := exec (spin_setValue v) s in
  outcome (spin_setValue v) s = Ok tt /\
  spin_minimum (page_spinbox s') = spin_minimum sb /\
  spin_maximum (page_spinbox s') = spin_maximum sb /\
  spin_blocked (page_spinbox s') = false /\
  spin_value (page_spinbox s') = c /\
  (c = spin_value sb /\ current_page s' = current_page s \/
   current_page s' = c - 1).
Proof.
  intros Hd Hu Hb. cbv zeta. unfold outcome, exec.
  rewrite (spin_setValue_eq v s d Hd Hu Hb). cbn [fst snd].
  set (c := Z.max (spin_minimum (page_spinbox s))
              (Z.min v (spin_maximum (page_spinbox s)))).
  destruct (Z.eqb_spec c (spin_value (page_spinbox s))) as [E|E].
  - repeat split; try reflexivity; try assumption.
    + symmetry. exact E.
    + left. split; [exact E | reflexivity].
  - unfold exec. rewrite scroll_to_page_eq. cbn [snd].
    destruct (in_gallery _ _);
      cbn [scrolled page_spinbox set_current_page set_page_spinbox
           spin_minimum spin_maximum spin_blocked spin_value current_page];
      repeat split; try reflexivity; try (right; reflexivity).
    subst c. lia.
Qed.

Lemma after_close_fields (s : PDFViewer) :
  page_spinbox (after_close s) = page_spinbox s /\
  zoom_level (after_close s) = zoom_level s /\
  invert_colors (after_close s) = invert_colors s /\
  (exists closing,
     events (after_close s) = closing ++ events s /\
     closing = match pdf_document s with
               | Some d => if negb (page_count d =? 0) then [EvClose] else []
               | None => []
               end).
Proof.
  unfold after_close.
  destruct (pdf_document s) as [d|]; [destruct (negb (page_count d =? 0)) |];
    (split; [reflexivity | split; [reflexivity | split; [reflexivity |]]]).
  - exists [EvClose]. split; reflexivity.
  - exists []. split; reflexivity.
  - exists []. split; reflexivity.
Qed.

Lemma no_lifecycle_refl (s : PDFViewer) : no_lifecycle s s.
Proof.
  split; [reflexivity | split; [reflexivity |]].
  exists []. split; [reflexivity | constructor].
Qed.

Lemma no_lifecycle_trans (s1 s2 s3 : PDFViewer) :
  no_lifecycle s1 s2 -> no_lifecycle s2 s3 -> no_lifecycle s1 s3.
Proof.
  intros (Hl1 & Ht1 & l1 & He1 & Hf1) (Hl2 & Ht2 & l2 & He2 & Hf2).
  split; [congruence | split; [congruence |]].
  exists (l2 ++ l1). split.
  - rewrite He2, He1, app_assoc. reflexivity.
  - apply Forall_app. split; assumption.
Qed.

Lemma no_lifecycle_same_events (s s' : PDFViewer) :
  page_count_label s' = page_count_label s ->
  status_label s' = status_label s ->
  events s' = events s -> no_lifecycle s s'.
Proof.
  intros Hl Ht He. split; [exact Hl | split; [exact Ht |]].
  exists []. split; [exact He | constructor].
Qed.

Lemma no_lifecycle_scrolled (p : Z) (s : PDFViewer) : no_lifecycle s (scrolled p s).
Proof.
  split; [reflexivity | split; [reflexivity |]].
  eexists [_]. split; [reflexivity |]. repeat constructor. intros H. exact H.
Qed.

Lemma no_lifecycle_rebuilt (d : Document) (s : PDFViewer) :
  no_lifecycle s (rebuilt d s).
Proof.
  split; [reflexivity | split; [reflexivity |]].
  unfold rebuilt. cbn [events]. eexists. split; [rewrite app_assoc; reflexivity |].
  apply Forall_app. split.
  - destruct (snd _); repeat constructor. intros H. exact H.
  - unfold pixmap_events. apply Forall_rev, Forall_map, Forall_forall.
    intros i _ H. exact H.
Qed.

Lemma no_lifecycle_spin_setValue (v : Z) : keeps no_lifecycle (spin_setValue v).
Proof.
  apply (keeps_spin_setValue no_lifecycle no_lifecycle_refl no_lifecycle_trans).
  - intros; apply no_lifecycle_same_events; reflexivity.
  - apply no_lifecycle_scrolled.
  - intros; apply no_lifecycle_same_events; reflexivity.
Qed.

Lemma returns_eq (m : M unit) (s : PDFViewer) :
  outcome m s = Ok tt -> m s = (Ok tt, exec m s).
Proof.
  unfold outcome, exec. destruct (m s) as [r s']. cbn [fst snd].
  intros ->. reflexivity.
Qed.

(** What a successful [open_file] leaves, from a viewer whose document is
    not closed and whose spin box is ready. *)
Lemma open_file_ok_full (fitz_open : string -> result (list Page)) (path : string)
      (ps : list Page) (s : PDFViewer) :
  path <> ""%string -> fitz_open path = Ok ps -> ps <> [] ->
  not_closed s -> spin_ready s ->
  let s' := exec (open_file fitz_open path) s in
  (spin_minimum (page_spinbox s') =
     Z.min (spin_minimum (page_spinbox s)) (Z.of_nat (length ps)) /\
   spin_blocked (page_spinbox s') = false) /\
  outcome (open_file fitz_open path) s = Ok tt /\
  pdf_document s' = Some (mkDocument ps false) /\
  current_page s' = 0 /\
  page_images s' = fst (render_prefix (invert_colors s) (zoom_level s) ps) /\
  spin_value (page_spinbox s') = 1 /\
  spin_maximum (page_spinbox s') = Z.of_nat (length ps) /\
  page_count_label s' = Z.of_nat (length ps) /\
  status_label s' = Some path /\
  exists later,
    events s' = later ++ EvOpen path :: events (after_close s) /\
    Forall (fun e => ~ is_lifecycle e) later.
Proof.
  intros Hpath Hopen Hps Hn [Hblocked Hmin].
  set (d' := mkDocument ps false).
  set (pc := Z.of_nat (length ps)).
  assert (Hu : usable d') by (split; [reflexivity | exact Hps]).
  assert (Hpc : 1 <= pc) by (pose proof (page_count_pos d' Hps); unfold page_count in *;
                             simpl in *; unfold pc; lia).
  destruct (after_close_fields s) as (Hsb & Hz & Hi & _).
  (* the states the method goes through *)
  set (s3 := set_current_page 0
               (log_event (EvOpen path) (set_pdf_document (Some d') (after_close s)))).
  set (s3m := set_page_spinbox
                (mkQSpinBox (Z.min (spin_minimum (page_spinbox s3)) pc) pc
                   (spin_value (page_spinbox s3)) (spin_blocked (page_spinbox s3))) s3).
  set (s4 := exec (spin_setValue (spin_value (page_spinbox s3m))) s3m).
  set (s5 := set_page_count_label pc s4).
  set (s6 := exec (spin_setValue 1) s5).
  (* the first signal *)
  assert (Hb3 : spin_blocked (page_spinbox s3m) = false).
  { cbn. rewrite Hsb. exact Hblocked. }
  destruct (spin_setValue_summary (spin_value (page_spinbox s3m)) s3m d' eq_refl Hu Hb3)
    as (Hok4 & Hmin4 & Hmax4 & Hb4 & Hv4 & Hcp4).
  fold s4 in Hmin4, Hmax4, Hb4, Hv4, Hcp4.
  pose proof (spin_setValue_view (spin_value (page_spinbox s3m)) s3m) as Hg4.
  fold s4 in Hg4.
  pose proof (no_lifecycle_spin_setValue (spin_value (page_spinbox s3m)) s3m) as Hl4.
  fold s4 in Hl4.
  assert (Hd5 : pdf_document s5 = Some d').
  { unfold gallery_view in Hg4. injection Hg4 as Hd4 _ _ _ _. exact Hd4. }
  (* the second signal *)
  destruct (spin_setValue_summary 1 s5 d' Hd5 Hu Hb4)
    as (Hok6 & Hmin6 & Hmax6 & Hb6 & Hv6 & Hcp6).
  fold s6 in Hmin6, Hmax6, Hb6, Hv6, Hcp6.
  pose proof (spin_setValue_view 1 s5) as Hg6. fold s6 in Hg6.
  pose proof (no_lifecycle_spin_setValue 1 s5) as Hl6. fold s6 in Hl6.
  assert (Hd6 : pdf_document s6 = Some d').
  { unfold gallery_view in Hg6. injection Hg6 as Hd6 _ _ _ _.
    rewrite Hd6. exact Hd5. }
  (* the method, step by step *)
  assert (Heq : open_file fitz_open path s =
                (Ok tt, set_status_label (Some path) (rebuilt d' s6))).
  { unfold open_file.
    destruct (String.eqb_spec path "") as [E|_]; [contradiction |].
    unfold try_except.
    pose proof (close_previous_eq s Hn) as Hclose.
    unfold bind at 1 2 in Hclose. unfold bind at 1 2 3.
    destruct (gets pdf_document s) as [[doc|e0] s0]; [| discriminate].
    destruct (lift (truthy doc) s0) as [[has_doc|e1] s1]; [| discriminate].
    destruct ((if has_doc then close_document else ret tt) s1) as [[[]|e2] s2];
      [| discriminate].
    injection Hclose as ->.
    unfold bind at 1, lift. rewrite Hopen.
    unfold bind at 1, modify. unfold bind at 1. unfold bind at 1.
    fold d'. fold s3.
    unfold bind at 1, len_document, bind at 1, the_document.
    change (pdf_document s3) with (Some d').
    unfold lift, doc_len. cbn [is_closed pages d']. fold pc.
    unfold bind at 1, spin_setMaximum, bind at 1, modify. unfold bind at 1, gets.
    fold s3m.
    rewrite (returns_eq _ _ Hok4). fold s4.
    unfold bind at 1. fold s5.
    rewrite (bind_ok _ _ _ _ _ (returns_eq _ _ Hok6)). fold s6.
    rewrite (bind_ok _ _ _ _ _ (render_all_pages_usable d' s6 Hd6 Hu)).
    reflexivity. }
  (* what the states hold *)
  assert (Hmin5 : spin_minimum (page_spinbox s5) = Z.min (spin_minimum (page_spinbox s)) pc /\
                  spin_maximum (page_spinbox s5) = pc).
  { split.
    - change (spin_minimum (page_spinbox s5)) with (spin_minimum (page_spinbox s4)).
      rewrite Hmin4. cbn. rewrite Hsb. reflexivity.
    - change (spin_maximum (page_spinbox s5)) with (spin_maximum (page_spinbox s4)).
      rewrite Hmax4. reflexivity. }
  destruct Hmin5 as [Hmin5 Hmax5].
  assert (Hone : Z.max (spin_minimum (page_spinbox s5))
                   (Z.min 1 (spin_maximum (page_spinbox s5))) = 1)
    by (rewrite Hmin5, Hmax5; lia).
  rewrite Hone in Hv6, Hcp6.
  assert (Hcp : current_page s6 = 0).
  { destruct Hcp6 as [[Hv5 Hcp6]|Hcp6]; [| lia].
    rewrite Hcp6. change (current_page s5) with (current_page s4).
    change (spin_value (page_spinbox s5)) with (spin_value (page_spinbox s4)) in Hv5.
    destruct Hcp4 as [[_ Hcp4]|Hcp4].
    - rewrite Hcp4. reflexivity.
    - rewrite Hcp4, <- Hv4, <- Hv5. reflexivity. }
  unfold outcome, exec. rewrite Heq. cbn [fst snd].
  split.
  { split; [| exact Hb6].
    cbn [page_spinbox set_status_label rebuilt]. rewrite Hmin6. exact Hmin5. }
  unfold gallery_view in Hg4, Hg6.
  injection Hg4 as _ Hz4 Hi4 _ _. injection Hg6 as _ Hz6 Hi6 _ _.
  split; [reflexivity |]. split; [exact Hd6 |]. split; [exact Hcp |].
  split.
  { cbn [page_images set_status_label rebuilt pages d'].
    f_equal. f_equal.
    - rewrite Hi6. change (invert_colors s5) with (invert_colors s4).
      rewrite Hi4. cbn. exact Hi.
    - rewrite Hz6. change (zoom_level s5) with (zoom_level s4).
      rewrite Hz4. cbn. exact Hz. }
  split; [exact Hv6 |]. split; [rewrite <- Hmax5, <- Hmax6; reflexivity |].
  split.
  { cbn [page_count_label set_status_label rebuilt].
    destruct Hl6 as (Hl & _). rewrite Hl. reflexivity. }
  split; [reflexivity |].
  destruct Hl4 as (_ & _ & l4 & He4 & Hf4).
  destruct Hl6 as (_ & _ & l6 & He6 & Hf6).
  destruct (no_lifecycle_rebuilt d' s6) as (_ & _ & lr & Her & Hfr).
  exists (lr ++ l6 ++ l4). split.
  - cbn [events set_status_label]. rewrite Her, He6.
    change (events s5) with (events s4). rewrite He4.
    rewrite <- !app_assoc. reflexivity.
  - repeat (apply Forall_app; split); assumption.
Qed.

Lemma open_file_ok (fitz_open : string -> result (list Page)) (path : string)
      (ps : list Page) (s : PDFViewer) :
  path <> ""%string -> fitz_open path = Ok ps -> ps <> [] ->
  not_closed s -> spin_ready s ->
  let s' := exec (open_file fitz_open path) s in
  outcome (open_file fitz_open path) s = Ok tt /\
  pdf_document s' = Some (mkDocument ps false) /\
  current_page s' = 0 /\
  page_images s' = fst (render_prefix (invert_colors s) (zoom_level s) ps) /\
  spin_value (page_spinbox s') = 1 /\
  spin_maximum (page_spinbox s') = Z.of_nat (length ps) /\
  page_count_label s' = Z.of_nat (length ps) /\
  status_label s' = Some path /\
  exists later,
    events s' = later ++ EvOpen path :: events (after_close s) /\
    Forall (fun e => ~ is_lifecycle e) later.
Proof.
  intros Hpath Hopen Hps Hn Hr.
  exact (proj2 (open_file_ok_full fitz_open path ps s Hpath Hopen Hps Hn Hr)).
Qed.

(** X14.  In every state the viewer reaches with no closed document in
    it, opening a file that [fitz.open] reads as a document with pages
    installs that document, open; makes page 0 the current page and shows
    page 1 of the page count in the spin box; fills the gallery with the
    rebuild of the new pages under the settings in force; and shows the
    path in the status label. *)
Theorem open_installs_document (cmds : list Command) (path : string)
        (ps : list Page) :
  not_closed (run_all cmds) -> path <> ""%string -> ps <> [] ->
  let s := run_all cmds in
  let s' := exec (run (CmdOpen path (Ok ps))) s in
  outcome (run (CmdOpen path (Ok ps))) s = Ok tt /\
  pdf_document s' = Some (mkDocument ps false) /\
  current_page s' = 0 /\
  page_images s' = fst (render_prefix (invert_colors s) (zoom_level s) ps) /\
  spin_value (page_spinbox s') = 1 /\
  spin_maximum (page_spinbox s') = Z.of_nat (length ps) /\
  page_count_label s' = Z.of_nat (length ps) /\
  status_label s' = Some path.
Proof.
  intros Hn Hpath Hps s s'.
  destruct (open_file_ok (fun _ => Ok ps) path ps s Hpath eq_refl Hps Hn
              (run_all_spin_ready cmds))
    as (H1 & H2 & H3 & H4 & H5 & H6 & H7 & H8 & _).
  repeat split; assumption.
Qed.

Lemma open_installs_document_witness :
  let s' := exec (run (CmdOpen "b.pdf" (Ok Examples.second_broken)))
              (run_all [CmdOpen "a.pdf"%string (Ok Examples.three_pages); CmdNext]) in
  current_page s' = 0 /\ spin_value (page_spinbox s') = 1.
Proof.
  destruct (open_installs_document
              [CmdOpen "a.pdf"%string (Ok Examples.three_pages); CmdNext]
              "b.pdf" Examples.second_broken)
    as (_ & _ & Hcp & _ & Hv & _).
  - reflexivity.
  - discriminate.
  - discriminate.
  - split; [exact Hcp | exact Hv].
Defined.

(** X15.  Such an open closes the document that was open exactly once,
    before [fitz.open] returns the new one, and closes nothing when no
    document (or one without pages) was open: of the events of the life of
    a document, it logs that close and then the open, and no error
    dialog. *)
Theorem open_closes_previous_once (cmds : list Command) (path : string)
        (ps : list Page) :
  not_closed (run_all cmds) -> path <> ""%string -> ps <> [] ->
  let s := run_all cmds in
  let s' := exec (run (CmdOpen path (Ok ps))) s in
  exists later,
    Forall (fun e => ~ is_lifecycle e) later /\
    events s' =
      later ++ EvOpen path
      :: match pdf_document s with
         | Some d => if negb (page_count d =? 0) then [EvClose] else []
         | None => []
         end ++ events s.
Proof.
  intros Hn Hpath Hps s s'.
  destruct (open_file_ok (fun _ => Ok ps) path ps s Hpath eq_refl Hps Hn
              (run_all_spin_ready cmds))
    as (_ & _ & _ & _ & _ & _ & _ & _ & later & He & Hf).
  destruct (after_close_fields s) as (_ & _ & _ & closing & Hc & Hclosing).
  exists later. split; [exact Hf |].
  unfold s'. cbn [run]. rewrite He, Hc, Hclosing. reflexivity.
Qed.

Lemma open_closes_previous_once_witness :
  let s := run_all [CmdOpen "a.pdf"%string (Ok Examples.three_pages)] in
  let s' := exec (run (CmdOpen "b.pdf" (Ok Examples.second_broken))) s in
  exists later,
    Forall (fun e => ~ is_lifecycle e) later /\
    events s' =
      later ++ EvOpen "b.pdf"
      :: match pdf_document s with
         | Some d => if negb (page_count d =? 0) then [EvClose] else []
         | None => []
         end ++ events s.
Proof.
  exact (open_closes_previous_once
           [CmdOpen "a.pdf"%string (Ok Examples.three_pages)]
           "b.pdf" Examples.second_broken eq_refl
           ltac:(discriminate) ltac:(discriminate)).
Defined.

(** ** Zoom commands on binary64 floats *)

Lemma binary64_level_reached (cmds : list ZoomCommand) :
  In (binary64_level cmds) Binary64.levels.
Proof.
  unfold binary64_level.
  generalize (proj1 binary64_levels_closed). generalize 1.0%float.
  induction cmds as [|c cmds IH]; intros z Hz.
  - exact Hz.
  - cbn [fold_left]. apply IH.
    destruct (proj2 binary64_levels_closed z Hz) as [Hin Hout].
    destruct c; assumption.
Qed.

(** X16.  On binary64 floats, whatever zoom commands are issued, the zoom
    level stays between the float of 0.2 and 5.0; at those two levels
    [zoom_out] and [zoom_in] leave it exactly where it is. *)
Theorem binary64_level_in_range (cmds : list ZoomCommand) :
  PrimFloat.leb Binary64.step (binary64_level cmds) = true /\
  PrimFloat.leb (binary64_level cmds) 5.0 = true /\
  Binary64.zoom_out_level Binary64.step = Binary64.step /\
  Binary64.zoom_in_level 5.0 = 5.0%float.
Proof.
  assert (Hall : forall z, In z Binary64.levels ->
            PrimFloat.leb Binary64.step z = true /\ PrimFloat.leb z 5.0 = true).
  { intros z H. unfold Binary64.levels in H.
    repeat (destruct H as [<-|H]; [split; vm_compute; reflexivity |]).
    destruct H. }
  destruct (Hall _ (binary64_level_reached cmds)) as [Hlo Hhi].
  repeat split; try assumption; vm_compute; reflexivity.
Qed.

(** X17.  On binary64 floats, whatever zoom commands led to the zoom
    level, [zoom_in] and then [zoom_out] bring it back to within 2^-30 of
    what it was, unless it was 5.0. *)
Theorem binary64_zoom_round_trip (cmds : list ZoomCommand) :
  binary64_level cmds <> 5.0%float ->
  PrimFloat.leb
    (PrimFloat.abs (binary64_level (cmds ++ [ZoomIn; ZoomOut]) - binary64_level cmds))
    Binary64.tolerance = true.
Proof.
  intros Hz. unfold binary64_level at 1. rewrite fold_left_app.
  cbn [fold_left]. fold (binary64_level cmds).
  apply (proj2 binary64_round_trip); [apply binary64_level_reached | exact Hz].
Qed.

Lemma binary64_zoom_round_trip_witness :
  PrimFloat.leb
    (PrimFloat.abs (binary64_level ([ZoomOut; ZoomOut] ++ [ZoomIn; ZoomOut])
                    - binary64_level [ZoomOut; ZoomOut]))
    Binary64.tolerance = true.
Proof.
  apply (binary64_zoom_round_trip [ZoomOut; ZoomOut]).
  vm_compute. intros H.
  assert (Hb : PrimFloat.eqb 0x1.3333333333334p-1 5 = true) by (rewrite H; reflexivity).
  vm_compute in Hb. discriminate Hb.
Defined.

(** X18.  On binary64 floats, whatever zoom commands are issued, the
    percentage written into the zoom label is a multiple of 20 or one
    less: the float level can lie just under the multiple of 0.2 it stands
    for, and [int] truncates.  Zooming in to 5.0 and out 14 times shows
    219 where the level stands for 2.2. *)
Theorem binary64_label_off_by_one (cmds : list ZoomCommand) :
  (binary64_label (binary64_level cmds) mod 20 = 0 \/
   binary64_label (binary64_level cmds) mod 20 = 19) /\
  binary64_label (binary64_level (repeat ZoomIn 20 ++ repeat ZoomOut 14)) = 219.
Proof.
  split; [| vm_compute; reflexivity].
  pose proof (binary64_level_reached cmds) as H.
  revert H. generalize (binary64_level cmds). intros z H.
  unfold Binary64.levels in H.
  repeat (destruct H as [<-|H];
          [first [left; vm_compute; reflexivity | right; vm_compute; reflexivity] |]).
  destruct H.
Qed.

(** ** The layout does not pile up *)

(** X19.  Whatever the user does, however often the gallery was rebuilt,
    the layout holds exactly one label for each bitmap of the gallery, in
    page order, followed by at most one stretch: a rebuild removes the
    widgets of the gallery before it. *)
Theorem layout_holds_gallery_only (cmds : list Command) :
  layout_exact (run_all cmds).
Proof.
  assert (Hrebuilt : forall d s, layout_exact (rebuilt d s)).
  { intros d s. unfold layout_exact, rebuilt. cbn [pages_layout page_images].
    destruct (snd _); [left; apply app_nil_r | right; reflexivity]. }
  assert (Hrender : keeps stays_layout_exact render_all_pages).
  { apply keeps_render_all_pages.
    - intros s H. exact H.
    - intros d s _ _ _. apply Hrebuilt. }
  apply (keeps_run_all stays_layout_exact);
    try (intros; intros Hexact; exact Hexact).
  - intros s1 s2 s3 H12 H23 H. exact (H23 (H12 H)).
  - intros d s _ _ _. apply Hrebuilt.
  - intros s Hs. unfold exec. rewrite zoom_in_eq. apply Hrender. exact Hs.
  - intros s Hs. unfold exec. rewrite zoom_out_eq. apply Hrender. exact Hs.
  - intros s Hs. unfold exec. rewrite toggle_color_invert_eq. apply Hrender. exact Hs.
  - left. reflexivity.
Qed.

(** ** Jumps through the spin box *)




















